(** * Azure AD B2C user directory client: attribute mapping and user operations

    A shallow embedding of [src/b2cusers.py] (class [User]) and of the part of
    [azuregraphscripts/mggraph.py] it calls ([connect_mggraph_application]).

    Python dictionaries are embedded as insertion-ordered association lists
    (module [Dict]); the network is embedded as the sequence of decoded bodies
    the server is going to deliver, together with the log of the requests made
    so far; the class-level list [User.custom_user_attributes] lives in the
    shared state, not in the instances. *)

From Stdlib Require Import String Ascii List ZArith Bool Lia DecimalString
  Permutation.
Import ListNotations.
Open Scope string_scope.
Open Scope list_scope.

Set Implicit Arguments.

(** ** Values *)

(** Decoded JSON, which is also what the payloads are made of.  Numbers are
    the integers. *)
#[warnings="-register-all"]
Inductive json : Type :=
| JNull
| JBool (b : bool)
| JNum (n : Z)
| JStr (s : string)
| JArr (l : list json)
| JObj (d : list (string * json)).

(** [x in xs] on a Python list of strings. *)
Definition mem_list (x : string) (xs : list string) : bool :=
  existsb (String.eqb x) xs.

(** [sep.join(xs)]. *)
Fixpoint join (sep : string) (xs : list string) : string :=
  match xs with
  | [] => ""
  | [x] => x
  | x :: rest => x ++ sep ++ join sep rest
  end.

(** [str.lower] for a name in ASCII: the letters A-Z are lowered.  Outside
    ASCII Python lowers further letters, which this does not follow: what is
    stated below about the lower-cased names is stated for names in ASCII
    ([ascii_only]). *)
Definition lower_ascii (c : ascii) : ascii :=
  let n := nat_of_ascii c in
  if (65 <=? n)%nat && (n <=? 90)%nat then ascii_of_nat (n + 32) else c.

Fixpoint lower (s : string) : string :=
  match s with
  | EmptyString => EmptyString
  | String c rest => String (lower_ascii c) (lower rest)
  end.

(** ** Python dictionaries with string keys

    Insertion ordered: assigning to a key that is present keeps its place,
    assigning to a new key appends it. *)
Module Dict.

Definition t (V : Type) : Type := list (string * V).

Definition empty {V : Type} : t V := [].

Fixpoint get {V : Type} (k : string) (d : t V) : option V :=
  match d with
  | [] => None
  | (k', v) :: rest => if String.eqb k' k then Some v else get k rest
  end.

Definition mem {V : Type} (k : string) (d : t V) : bool :=
  match get k d with Some _ => true | None => false end.

Fixpoint set {V : Type} (k : string) (v : V) (d : t V) : t V :=
  match d with
  | [] => [(k, v)]
  | (k', v') :: rest =>
      if String.eqb k' k then (k', v) :: rest else (k', v') :: set k v rest
  end.

(** [d.pop(k, default)] with the result dropped. *)
Fixpoint pop {V : Type} (k : string) (d : t V) : t V :=
  match d with
  | [] => []
  | (k', v') :: rest =>
      if String.eqb k' k then rest else (k', v') :: pop k rest
  end.

Definition keys {V : Type} (d : t V) : list string := map fst d.
Definition values {V : Type} (d : t V) : list V := map snd d.

(** The invariant of a dictionary: no key twice. *)
Definition wf {V : Type} (d : t V) : Prop := NoDup (keys d).

(** [d1 == d2] in Python: the same bindings, in any order. *)
Definition equiv {V : Type} (d1 d2 : t V) : Prop :=
  forall k, get k d1 = get k d2.

End Dict.

Definition record : Type := Dict.t json.

(** ** Exceptions, requests, responses *)

Inductive exn : Type :=
| ValueError (msg : string)
| Exception (msg : string)
| KeyError (key : string)
| AttributeError (msg : string)
| TypeError (msg : string)
| OverflowError (msg : string)
| ConnectError.

Inductive result (A : Type) : Type :=
| Ok (a : A)
| Raise (e : exn).
Arguments Ok {A} a.
Arguments Raise {A} e.

Inductive method : Type := GET | POST | PATCH | DELETE.

(** One call on [httpx] or on the connection object. *)
Record request : Type := mkRequest {
  req_method : method;
  req_url : string;
  req_params : list (string * json);   (* params= *)
  req_data : list (string * string);   (* data=, form encoded *)
  req_json : option json               (* json= *)
}.

(** An entry of [/identity/userFlowAttributes]. *)
Record extension : Type := mkExtension {
  ext_id : string;
  ext_displayName : string;
  ext_userFlowAttributeType : string
}.

(** What [.json()] gives, by the resource that answers. *)
Inductive body : Type :=
| Token (access_token : string)
| Attributes (value : list extension)
| Page (value : list record) (nextLink : option string)
| Object (fields : record).

(** The keys of the decoded body, which is a Python dict. *)
Definition body_keys (b : body) : list string :=
  match b with
  | Token _ => ["access_token"]
  | Attributes _ => ["value"]
  | Page _ None => ["value"]
  | Page _ (Some _) => ["value"; "@odata.nextLink"]
  | Object d => Dict.keys d
  end.

Record response : Type := mkResponse {
  resp_json : body;     (* response.json() *)
  resp_bool : bool      (* bool(response) *)
}.

(** ** The shared state *)

Record world : Type := mkWorld {
  custom_user_attributes : list string;  (* User.custom_user_attributes *)
  sent : list request;                   (* requests made so far *)
  pending : list response                (* what the server will answer *)
}.

(** ** State and exception monad *)

Definition M (A : Type) : Type := world -> result A * world.

Definition ret {A : Type} (a : A) : M A := fun w => (Ok a, w).

Definition raise {A : Type} (e : exn) : M A := fun w => (Raise e, w).

Definition bind {A B : Type} (m : M A) (f : A -> M B) : M B :=
  fun w =>
    match m w with
    | (Ok a, w') => f a w'
    | (Raise e, w') => (Raise e, w')
    end.

Notation "x <- m ;; k" := (bind m (fun x => k))
  (at level 61, m at next level, right associativity).
Notation "m ;;; k" := (bind m (fun _ => k))
  (at level 61, right associativity).

Definition lift {A : Type} (r : result A) : M A := fun w => (r, w).

(** Makes a request: it is logged, and the next answer of the server is
    taken; with none left the transport fails. *)
Definition http (r : request) : M response :=
  fun w =>
    match pending w with
    | [] =>
        (Raise ConnectError,
         mkWorld (custom_user_attributes w) (sent w ++ [r]) [])
    | a :: rest =>
        (Ok a, mkWorld (custom_user_attributes w) (sent w ++ [r]) rest)
    end.

(** [User.custom_user_attributes.append(x)]. *)
Definition append_custom (x : string) : M unit :=
  fun w =>
    (Ok tt, mkWorld (custom_user_attributes w ++ [x]) (sent w) (pending w)).

(** Reads [self.custom_user_attributes]: no instance ever assigns the
    attribute, so the lookup ends at the class. *)
Definition read_custom : M (list string) :=
  fun w => (Ok (custom_user_attributes w), w).

(** ** mggraph.py *)

(** The connection object: every call made on it carries the bearer token. *)
Record connection : Type := mkConnection {
  conn_base_url : string;
  conn_authorization : string
}.

Definition connect_mggraph_application
    (app_id secret tenant_id api_url : string) : M connection :=
  token <- http (mkRequest POST
      ("https://login.microsoftonline.com/" ++ tenant_id ++ "/oauth2/v2.0/token")
      []
      [("scope", "https://graph.microsoft.com/.default");
       ("grant_type", "client_credentials");
       ("client_id", app_id);
       ("client_secret", secret)]
      None) ;;
  match resp_json token with
  | Token access_token =>
      ret (mkConnection api_url ("Bearer " ++ access_token))
  | _ => raise (KeyError "access_token")
  end.

Definition conn_get (c : connection) (url : string)
    (params : list (string * json)) : M response :=
  http (mkRequest GET url params [] None).

Definition conn_post (c : connection) (url : string) (payload : json)
    : M response :=
  http (mkRequest POST url [] [] (Some payload)).

Definition conn_patch (c : connection) (url : string) (payload : json)
    : M response :=
  http (mkRequest PATCH url [] [] (Some payload)).

(** ** b2cusers.py: class attributes *)

Definition base_user_attributes : list string :=
  ["id"; "givenName"; "surname"; "jobTitle"; "mail"; "creationType";
   "identities"; "accountEnabled"].

Definition extended_user_attributes : list string :=
  ["id"; "ageGroup"; "createdDateTime"; "userType"].

Definition unwanted_attributes : list string :=
  ["emails"; "jobTitle"; "legalAgeGroupClassification"; "newUser"; "ObjectId"].

(** ** b2cusers.py: instances *)

Record User : Type := mkUser {
  tenant_name : string;
  api_url : string;
  graph_connection : connection;
  userflow_user_attributes : list string;
  userflow_attribute_mapping : Dict.t string;
  all_user_attributes : list string
}.

(** *** [__init__] *)

(** The key and the value one schema entry writes into the mapping. *)
Definition extension_key (extension : extension) : string :=
  if String.eqb (ext_userFlowAttributeType extension) "builtIn"
  then ext_id extension
  else lower (ext_displayName extension).

Definition is_builtIn (extension : extension) : bool :=
  String.eqb (ext_userFlowAttributeType extension) "builtIn".

(** The loop of lines 71-80. *)
Fixpoint prepare_mapping (extensions : list extension)
    (mapping : Dict.t string) : M (Dict.t string) :=
  match extensions with
  | [] => ret mapping
  | extension :: rest =>
      if String.eqb (ext_userFlowAttributeType extension) "builtIn" then
        prepare_mapping rest
          (Dict.set (ext_id extension) (ext_id extension) mapping)
      else
        let extension_displayname := lower (ext_displayName extension) in
        let extension_id := ext_id extension in
        append_custom extension_id ;;;
        prepare_mapping rest
          (Dict.set extension_displayname extension_id mapping)
  end.

Definition User_init (app_id secret tenant_id tenant_name api_url : string)
    : M User :=
  graph_connection <-
    connect_mggraph_application app_id secret tenant_id api_url ;;
  answer <- conn_get graph_connection
              (api_url ++ "/identity/userFlowAttributes") [] ;;
  match resp_json answer with
  | Attributes extension_user_attributes =>
      let userflow_user_attributes :=
        map ext_id extension_user_attributes in
      mapping <- prepare_mapping extension_user_attributes Dict.empty ;;
      ret (mkUser tenant_name api_url graph_connection
             userflow_user_attributes mapping
             (base_user_attributes ++ extended_user_attributes
                ++ userflow_user_attributes))
  | _ => raise (TypeError "userFlowAttributes: unexpected body")
  end.

(** *** [list] *)

(** [s.add(x)] on a set, kept as a list without repetition.  Python leaves
    the order in which a set is walked open; here it is the order of
    insertion, and what is stated below about the text joined from a set
    is stated for some order of its elements. *)
Definition set_add (x : string) (s : list string) : list string :=
  if mem_list x s then s else s ++ [x].

(** Lines 151-156: the attributes asked for on top of the base ones. *)
Fixpoint attributes_to_fetch (mapping : Dict.t string)
    (include_attributes : list string) (fetch : list string)
    : result (list string) :=
  match include_attributes with
  | [] => Ok fetch
  | include_attribute :: rest =>
      match Dict.get include_attribute mapping with
      | None =>
          Raise (ValueError
            (include_attribute ++ " is not a known attribute. Only "
               ++ join "," (Dict.keys mapping) ++ " are allowed"))
      | Some mapped => attributes_to_fetch mapping rest (set_add mapped fetch)
      end
  end.

(** [{v:k for k,v in mapping.items()}]. *)
Definition reversed_mapping (mapping : Dict.t string) : Dict.t string :=
  fold_left (fun reversed kv => Dict.set (snd kv) (fst kv) reversed)
            mapping Dict.empty.

(** Lines 200-204, for the items of one customer. *)
Fixpoint remap_items (custom : list string) (reversed : Dict.t string)
    (items : list (string * json)) (remapped_customer : record)
    : result record :=
  match items with
  | [] => Ok remapped_customer
  | (attribute, value) :: rest =>
      if mem_list attribute custom then
        match Dict.get attribute reversed with
        | Some name =>
            remap_items custom reversed rest
              (Dict.set name value remapped_customer)
        | None => Raise (KeyError attribute)
        end
      else
        remap_items custom reversed rest
          (Dict.set attribute value remapped_customer)
  end.

Definition remap_customer (custom : list string) (reversed : Dict.t string)
    (customer : record) : result record :=
  remap_items custom reversed customer Dict.empty.

(** Lines 196-206, for a list of customers. *)
Fixpoint remap_customers (custom : list string) (reversed : Dict.t string)
    (customers : list record) : result (list record) :=
  match customers with
  | [] => Ok []
  | customer :: rest =>
      match remap_customer custom reversed customer with
      | Raise e => Raise e
      | Ok remapped_customer =>
          match remap_customers custom reversed rest with
          | Raise e => Raise e
          | Ok mapped_customers => Ok (remapped_customer :: mapped_customers)
          end
      end
  end.

(** What [all_customers] is bound to: the list the pages were gathered in
    (max = 0), or the whole decoded body (the other branch). *)
Inductive customers : Type :=
| Gathered (records : list record)
| Decoded (b : body).

(** Lines 192-208.  Walking a decoded body walks its keys, which are
    strings, and a string has no [items]. *)
Definition fix_fieldnames (custom : list string) (mapping : Dict.t string)
    (all_customers : customers) : result (list record) :=
  let reversed := reversed_mapping mapping in
  match all_customers with
  | Gathered records => remap_customers custom reversed records
  | Decoded b =>
      match body_keys b with
      | [] => Ok []
      | _ :: _ => Raise (AttributeError "'str' object has no attribute 'items'")
      end
  end.

(** Lines 174-177: the loop over the continuation links.  Each turn takes
    one answer of the server, so the loop is by recursion on those. *)
Fixpoint follow_links (next_link : option string) (all_customers : list record)
    (log : list request) (answers : list response)
    : result (list record) * (list request * list response) :=
  match next_link with
  | None => (Ok all_customers, (log, answers))
  | Some link =>
      let log' := log ++ [mkRequest GET link [] [] None] in
      match answers with
      | [] => (Raise ConnectError, (log', []))
      | answer :: rest =>
          match resp_json answer with
          | Page value next => follow_links next (all_customers ++ value) log' rest
          | _ => (Raise (KeyError "value"), (log', rest))
          end
      end
  end.

Definition follow (next_link : option string) (all_customers : list record)
    : M (list record) :=
  fun w =>
    let '(r, (log, answers)) :=
      follow_links next_link all_customers (sent w) (pending w) in
    (r, mkWorld (custom_user_attributes w) log answers).

Definition users_request (url needed_attributes : string) (top : Z) : request :=
  mkRequest GET url
    [("$select", JStr needed_attributes);
     ("$top", JNum top);
     ("$filter", JStr "creationType eq 'LocalAccount'")]
    [] None.

Definition User_list (self : User) (max : Z) (include_attributes : list string)
    : M (list record) :=
  fetch <- lift (attributes_to_fetch (userflow_attribute_mapping self)
                   include_attributes base_user_attributes) ;;
  let needed_attributes := join "," fetch in
  all_customers <-
    (if (max =? 0)%Z then
       answer <- http (users_request (api_url self ++ "/users")
                         needed_attributes 999) ;;
       match resp_json answer with
       | Page value next =>
           gathered <- follow next ([] ++ value) ;;
           ret (Gathered gathered)
       | _ => raise (KeyError "value")
       end
     else if (max <=? 999)%Z then
       answer <- http (users_request (api_url self ++ "/users")
                         needed_attributes max) ;;
       ret (Decoded (resp_json answer))
     else raise (Exception "max value should be between 0 and 999")) ;;
  custom <- read_custom ;;
  lift (fix_fieldnames custom (userflow_attribute_mapping self) all_customers).

(** *** [profile] *)

(** Lines 263-268: every name of the mapping, with what the server sent for
    it or [None]. *)
Definition full_mapping (mapping : Dict.t string) (graph_user_profile : record)
    : record :=
  fold_left
    (fun user_profile kv =>
       Dict.set (fst kv)
         (match Dict.get (snd kv) graph_user_profile with
          | Some v => v
          | None => JNull
          end)
         user_profile)
    mapping Dict.empty.

(** Lines 271-272. *)
Definition remove_unwanted (user_profile : record) : record :=
  fold_left (fun p attribute => Dict.pop attribute p)
            unwanted_attributes user_profile.

Definition User_profile (self : User) (userid : string)
    (user_attributes : option (list string)) : M record :=
  let user_attributes :=
    match user_attributes with
    | None => all_user_attributes self
    | Some l => l
    end in
  answer <- conn_get (graph_connection self)
              (api_url self ++ "/users/" ++ userid ++ "?$select="
                 ++ join "," user_attributes) [] ;;
  match resp_json answer with
  | Object graph_user_profile =>
      ret (remove_unwanted
             (full_mapping (userflow_attribute_mapping self)
                           graph_user_profile))
  | _ => raise (TypeError "users/{id}: unexpected body")
  end.

(** *** [create] and [update] *)

(** Lines 310-312 and 359-361: the fields of the input the mapping knows,
    under their Graph names. *)
Definition map_known_fields (mapping : Dict.t string) (user : record) : record :=
  fold_left
    (fun mapped kv =>
       match Dict.get (fst kv) user with
       | Some v => Dict.set (snd kv) v mapped
       | None => mapped
       end)
    mapping Dict.empty.

Definition User_update (self : User) (userid : string) (user : record)
    : M bool :=
  let mapped_updated_customer :=
    map_known_fields (userflow_attribute_mapping self) user in
  update_user <- conn_patch (graph_connection self)
                   (api_url self ++ "/users/" ++ userid)
                   (JObj mapped_updated_customer) ;;
  ret (resp_bool update_user).

Section Create.

(** [str()] of a list or of a dict, which Python defines and no statement
    below depends on. *)
Variable py_repr : json -> string.

(** What an f-string puts for [user.get(name)]. *)
Definition py_format (v : option json) : string :=
  match v with
  | None => "None"
  | Some JNull => "None"
  | Some (JBool true) => "True"
  | Some (JBool false) => "False"
  | Some (JNum n) => NilZero.string_of_int (Z.to_int n)
  | Some (JStr s) => s
  | Some j => py_repr j
  end.

(** [user[key]]. *)
Definition subscript (user : record) (key : string) : result json :=
  match Dict.get key user with
  | Some v => Ok v
  | None => Raise (KeyError key)
  end.

(** Lines 310-328: the object that is posted. *)
Definition new_user_payload (self : User) (user : record) : result record :=
  let mapped_new_user :=
    map_known_fields (userflow_attribute_mapping self) user in
  let mapped_new_user :=
    Dict.set "displayName"
      (match Dict.get "displayName" user with
       | Some v => v
       | None =>
           JStr (py_format (Dict.get "givenName" user) ++ " "
                   ++ py_format (Dict.get "surname" user))
       end)
      mapped_new_user in
  match subscript user "email" with
  | Raise e => Raise e
  | Ok mail =>
      let mapped_new_user := Dict.set "mail" mail mapped_new_user in
      let mapped_new_user :=
        Dict.set "accountEnabled" (JBool true) mapped_new_user in
      let mapped_new_user :=
        Dict.set "passwordPolicies" (JStr "DisablePasswordExpiration")
                 mapped_new_user in
      match subscript user "password" with
      | Raise e => Raise e
      | Ok password =>
          let mapped_new_user :=
            Dict.set "passwordProfile"
              (JObj [("password", password);
                     ("forceChangePasswordNextSignIn", JBool false)])
              mapped_new_user in
          match subscript user "email" with
          | Raise e => Raise e
          | Ok email =>
              Ok (Dict.set "identities"
                    (JArr [JObj [("issuer", JStr (tenant_name self));
                                 ("issuerAssignedId", email);
                                 ("signInType", JStr "emailAddress")]])
                    mapped_new_user)
          end
      end
  end.

Definition User_create (self : User) (user : record) : M body :=
  mapped_new_user <- lift (new_user_payload self user) ;;
  create_user <- conn_post (graph_connection self)
                   (api_url self ++ "/users") (JObj mapped_new_user) ;;
  ret (resp_json create_user).

End Create.

(** *** [get_attributes] *)

(** Lines 104-111: the combined list is computed again, stored in the
    instance and returned; the instance comes back with it. *)
Definition User_get_attributes (self : User) : list string * User :=
  let all_user_attributes :=
    base_user_attributes ++ extended_user_attributes
      ++ userflow_user_attributes self in
  (all_user_attributes,
   mkUser (tenant_name self) (api_url self) (graph_connection self)
          (userflow_user_attributes self) (userflow_attribute_mapping self)
          all_user_attributes).

(** *** [search] *)

(** The bytes [urllib.parse.quote] never escapes: letters, digits and
    [_.-~]. *)
Definition always_safe (c : ascii) : bool :=
  let n := nat_of_ascii c in
  ((65 <=? n)%nat && (n <=? 90)%nat)
  || ((97 <=? n)%nat && (n <=? 122)%nat)
  || ((48 <=? n)%nat && (n <=? 57)%nat)
  || Ascii.eqb c "_" || Ascii.eqb c "." || Ascii.eqb c "-" || Ascii.eqb c "~".

Definition hex_digit (n : nat) : ascii :=
  nth n (list_ascii_of_string "0123456789ABCDEF") "0"%char.

(** One byte as [quote] writes it, with the default [safe='/']. *)
Definition quote_byte (c : ascii) : string :=
  if always_safe c || Ascii.eqb c "/" then String c ""
  else String "%"
         (String (hex_digit (nat_of_ascii c / 16))
            (String (hex_digit (nat_of_ascii c mod 16)) "")).

(** [urllib.parse.quote(s)], on the UTF-8 bytes of [s]. *)
Fixpoint quote (s : string) : string :=
  match s with
  | EmptyString => EmptyString
  | String c rest => quote_byte c ++ quote rest
  end.

Definition search_url (self : User) (email : string) : string :=
  api_url self
    ++ "/users?$filter=(identities/any(i:i/issuer eq '"
    ++ tenant_name self
    ++ "' and i/issuerAssignedId eq '"
    ++ email
    ++ "'))&$select=id,identities".

Definition User_search (self : User) (email : string) : M (list record) :=
  let email := quote email in
  searchresult <- conn_get (graph_connection self) (search_url self email) [] ;;
  match resp_json searchresult with
  | Page value _ => ret value
  | _ => raise (KeyError "value")
  end.

(** *** [delete] and [change_password] *)

Definition conn_delete (c : connection) (url : string) : M response :=
  http (mkRequest DELETE url [] [] None).

Definition User_delete (self : User) (userid : string) : M bool :=
  delete_user <- conn_delete (graph_connection self)
                   (api_url self ++ "/users/" ++ userid) ;;
  ret (resp_bool delete_user).

Definition User_change_password (self : User) (userid password : string)
    : M bool :=
  let user :=
    Dict.set "passwordProfile"
      (JObj [("password", JStr password);
             ("forceChangePasswordNextSignIn", JBool false)])
      Dict.empty in
  update_password <- conn_patch (graph_connection self)
                       (api_url self ++ "/users/" ++ userid) (JObj user) ;;
  ret (resp_bool update_password).

(** ** mggraph.py: the device-code flow *)

(** What the operator sees and does: the lines printed, the prompts
    answered with Enter, the addresses opened in the browser. *)
Record terminal : Type := mkTerminal {
  printed : list string;
  prompts : list string;
  opened : list string
}.

(** How a call ends: with a value, with an exception, or in [exit()]. *)
Inductive ending (A : Type) : Type :=
| Returned (a : A)
| Raised (e : exn)
| Exited.
Arguments Returned {A} a.
Arguments Raised {A} e.
Arguments Exited {A}.

Definition T (A : Type) : Type :=
  terminal * world -> ending A * (terminal * world).

Definition t_ret {A : Type} (a : A) : T A := fun s => (Returned a, s).

Definition t_bind {A B : Type} (m : T A) (f : A -> T B) : T B :=
  fun s =>
    match m s with
    | (Returned a, s') => f a s'
    | (Raised e, s') => (Raised e, s')
    | (Exited, s') => (Exited, s')
    end.

Notation "x <~ m ;; k" := (t_bind m (fun x => k))
  (at level 61, m at next level, right associativity).
Notation "m ;;~ k" := (t_bind m (fun _ => k))
  (at level 61, right associativity).

(** A computation on the network, at the terminal. *)
Definition net {A : Type} (m : M A) : T A :=
  fun s =>
    match m (snd s) with
    | (Ok a, w') => (Returned a, (fst s, w'))
    | (Raise e, w') => (Raised e, (fst s, w'))
    end.

Definition print (line : string) : T unit :=
  fun s =>
    (Returned tt,
     (mkTerminal (printed (fst s) ++ [line]) (prompts (fst s)) (opened (fst s)),
      snd s)).

Definition input (prompt : string) : T unit :=
  fun s =>
    (Returned tt,
     (mkTerminal (printed (fst s)) (prompts (fst s) ++ [prompt]) (opened (fst s)),
      snd s)).

Definition webbrowser_open (url : string) : T unit :=
  fun s =>
    (Returned tt,
     (mkTerminal (printed (fst s)) (prompts (fst s)) (opened (fst s) ++ [url]),
      snd s)).

Definition exit {A : Type} : T A := fun s => (Exited, s).

(** [x in j] for a string [x] and a decoded value [j]: an element of a
    list, a key of an object, a part of a string. *)
Definition py_contains (x : string) (j : json) : result bool :=
  match j with
  | JArr l =>
      Ok (existsb (fun e => match e with
                            | JStr s => String.eqb s x
                            | _ => false
                            end) l)
  | JObj d => Ok (Dict.mem x d)
  | JStr s => Ok (match index 0 x s with Some _ => true | None => false end)
  | _ => Raise (TypeError "argument is not iterable")
  end.

(** The seconds [timedelta(seconds=v)] is given by a decoded value; whether
    they are in range is up to [strftime_after] below. *)
Definition timedelta_seconds (v : json) : result Z :=
  match v with
  | JNum n => Ok n
  | JBool true => Ok 1%Z
  | JBool false => Ok 0%Z
  | _ => Raise (TypeError "unsupported type for timedelta seconds component")
  end.

(** A value that has to be a string: an address for the browser, a field
    of a form.  Other values are not followed further. *)
Definition as_str (v : json) : result string :=
  match v with
  | JStr s => Ok s
  | _ => Raise (TypeError "expected str")
  end.

Section DeviceCode.

(** The local time [seconds] after the call began, as
    [strftime("%Y-%m-%d %H:%M:%S")] writes it, or the OverflowError of
    [timedelta(seconds=...)] or of the addition to [now] where that leaves
    the range of the dates. *)
Variable strftime_after : Z -> result string.

(** [str()] of a list or of a dict. *)
Variable py_repr : json -> string.

Definition devicecode_request (app_id tenant_id : string)
    (scopes : list string) : request :=
  mkRequest POST
    ("https://login.microsoftonline.com/" ++ tenant_id
       ++ "/oauth2/v2.0/devicecode")
    []
    [("scope", join " " scopes); ("client_id", app_id)]
    None.

Definition redeem_request (app_id tenant_id device_code : string) : request :=
  mkRequest POST
    ("https://login.microsoftonline.com/" ++ tenant_id ++ "/oauth2/v2.0/token")
    []
    [("grant_type", "urn:ietf:params:oauth:grant-type:device_code");
     ("client_id", app_id);
     ("device_code", device_code)]
    None.

(** [answer[key]] on a decoded body. *)
Definition body_subscript (b : body) (key : string) : result json :=
  match b with
  | Object d => subscript d key
  | Token access_token =>
      if String.eqb key "access_token" then Ok (JStr access_token)
      else Raise (KeyError key)
  | _ => Raise (KeyError key)
  end.

(** [key in answer] on a decoded body. *)
Definition body_has (b : body) (key : string) : bool :=
  mem_list key (body_keys b).

Definition connect_mggraph_devicecode (app_id tenant_id : string)
    (scopes : list string) (api_url : string) : T connection :=
  answer <~ net (http (devicecode_request app_id tenant_id scopes)) ;;
  let request_token := resp_json answer in
  expires_in <~ net (lift (body_subscript request_token "expires_in")) ;;
  seconds <~ net (lift (timedelta_seconds expires_in)) ;;
  code_validity <~ net (lift (strftime_after seconds)) ;;
  device_code <~ net (lift (body_subscript request_token "device_code")) ;;
  print "Please enter the following code in your web browser:" ;;~
  user_code <~ net (lift (body_subscript request_token "user_code")) ;;
  print (py_format py_repr (Some user_code)) ;;~
  print ("This code is valid for 15 minutes until " ++ code_validity) ;;~
  print "The browser will open automatically once you press enter." ;;~
  input "Press Enter to open a browser window" ;;~
  verification_uri <~
    net (lift (body_subscript request_token "verification_uri")) ;;
  address <~ net (lift (as_str verification_uri)) ;;
  webbrowser_open address ;;~
  input "Press Enter once you have logged in with your device code" ;;~
  code <~ net (lift (as_str device_code)) ;;
  answer <~ net (http (redeem_request app_id tenant_id code)) ;;
  let token := resp_json answer in
  (if body_has token "error" then
     error_codes <~ net (lift (body_subscript token "error_codes")) ;;
     known <~ net (lift (py_contains "7000218" error_codes)) ;;
     (if known : bool then
        print "Public client flows not allowed. Please enable this in the appreg"
      else
        print (match token with
               | Object d => py_repr (JObj d)
               | _ => ""
               end)) ;;~
     exit
   else t_ret tt) ;;~
  access_token <~ net (lift (body_subscript token "access_token")) ;;
  t_ret (mkConnection api_url
           ("Bearer " ++ py_format py_repr (Some access_token))).

End DeviceCode.

(** * What the loops compute *)

(** The mapping the loop of [__init__] leaves: each entry assigns its id
    under its key, in the order of the schema. *)
Definition mapping_of (extensions : list extension) (mapping : Dict.t string)
    : Dict.t string :=
  fold_left
    (fun m extension => Dict.set (extension_key extension) (ext_id extension) m)
    extensions mapping.

(** The ids the loop of [__init__] appends to the class-level list. *)
Definition custom_ids (extensions : list extension) : list string :=
  map ext_id (filter (fun extension => negb (is_builtIn extension)) extensions).

(** A name in ASCII: every byte below 128.  On such a name [lower] is what
    [str.lower] does. *)
Definition ascii_only (s : string) : bool :=
  forallb (fun c => (nat_of_ascii c <? 128)%nat) (list_ascii_of_string s).

(** A schema whose entries that are not built-in are displayed under names
    in ASCII. *)
Definition ascii_names (extensions : list extension) : bool :=
  forallb (fun extension =>
             is_builtIn extension || ascii_only (ext_displayName extension))
          extensions.

(** The requests of a construction. *)
Definition token_request (app_id secret tenant_id : string) : request :=
  mkRequest POST
    ("https://login.microsoftonline.com/" ++ tenant_id ++ "/oauth2/v2.0/token")
    []
    [("scope", "https://graph.microsoft.com/.default");
     ("grant_type", "client_credentials");
     ("client_id", app_id);
     ("client_secret", secret)]
    None.

Definition schema_request (api_url : string) : request :=
  mkRequest GET (api_url ++ "/identity/userFlowAttributes") [] [] None.

(** The instance a construction leaves. *)
Definition constructed (tenant_name api_url access_token : string)
    (extensions : list extension) : User :=
  mkUser tenant_name api_url
    (mkConnection api_url ("Bearer " ++ access_token))
    (map ext_id extensions)
    (mapping_of extensions Dict.empty)
    (base_user_attributes ++ extended_user_attributes ++ map ext_id extensions).

(** ** Listing *)

(** The message of line 154. *)
Definition unknown_attribute_message (mapping : Dict.t string)
    (include_attribute : string) : string :=
  include_attribute ++ " is not a known attribute. Only "
    ++ join "," (Dict.keys mapping) ++ " are allowed".

Definition link_request (link : string) : request :=
  mkRequest GET link [] [] None.

(** [chain next answers records links]: from the continuation [next] on,
    the server's [answers] are pages, each reached by the link of the one
    before, the last one without a link; [records] are their records in
    order and [links] the links that were followed. *)
Inductive chain :
  option string -> list response -> list record -> list string -> Prop :=
| chain_end : chain None [] [] []
| chain_next (link : string) (answer : response) (value : list record)
    (next : option string) (answers : list response) (records : list record)
    (links : list string) :
    resp_json answer = Page value next ->
    chain next answers records links ->
    chain (Some link) (answer :: answers) (value ++ records) (link :: links).

Definition page_answer (value : list record) (next : option string) : response :=
  mkResponse (Page value next) true.

(** ** Profile, create and update *)

(** What [profile] puts under a name: the field of the answer, or [None]. *)
Definition sent_or_null (graph_user_profile : record) (mapped_attribute : string)
    : json :=
  match Dict.get mapped_attribute graph_user_profile with
  | Some v => v
  | None => JNull
  end.

(** The names [create] reads from its input by itself. *)
Definition create_reads : list string :=
  ["displayName"; "givenName"; "surname"; "email"; "password"].

Definition create_request (self : User) (payload : record) : request :=
  mkRequest POST (api_url self ++ "/users") [] [] (Some (JObj payload)).

Definition update_request (self : User) (userid : string) (payload : record)
    : request :=
  mkRequest PATCH (api_url self ++ "/users/" ++ userid) [] [] (Some (JObj payload)).

(** ** The renaming of [list], field by field *)

(** A loop that assigns [val x] under [key x] for each [x] of [items]. *)
Definition assign_all (A V : Type) (key : A -> string) (val : A -> V)
    (items : list A) (d : Dict.t V) : Dict.t V :=
  fold_left (fun acc x => Dict.set (key x) (val x) acc) items d.

(** The name under which the loop of lines 200-204 stores the value of
    [attribute]. *)
Definition out_name (custom : list string) (reversed : Dict.t string)
    (attribute : string) : string :=
  if mem_list attribute custom then
    match Dict.get attribute reversed with
    | Some name => name
    | None => attribute
    end
  else attribute.

Definition rename_item (custom : list string) (reversed : Dict.t string)
    (item : string * json) : string * json :=
  (out_name custom reversed (fst item), snd item).

(** Following the specification ("remapping the keys back through the
    forward mapping"): each key of a record replaced by the id the mapping
    has for it. *)
Fixpoint spec_remap_back (mapping : Dict.t string)
    (items : list (string * json)) (back : record) : result record :=
  match items with
  | [] => Ok back
  | (name, value) :: rest =>
      match Dict.get name mapping with
      | Some id => spec_remap_back mapping rest (Dict.set id value back)
      | None => Raise (KeyError name)
      end
  end.

(** ** Two clients in one process *)

(** [first = User(...); second = User(...)]. *)
Definition two_clients
    (app_id secret tenant_id tenant_name api_url : string)
    (app_id' secret' tenant_id' tenant_name' api_url' : string)
    : M (User * User) :=
  first <- User_init app_id secret tenant_id tenant_name api_url ;;
  second <- User_init app_id' secret' tenant_id' tenant_name' api_url' ;;
  ret (first, second).

(** * Tenants and inputs *)

(** ** A tenant whose custom attribute "Email" meets the built-in "email" *)





(** ** A tenant with one built-in and one custom attribute *)

Definition shop_schema : list extension :=
  [mkExtension "city" "City" "builtIn";
   mkExtension "extension_abc_LoyaltyNumber" "LoyaltyNumber" "custom"].

Definition shop_client : User :=
  constructed "shop.onmicrosoft.com" "https://graph.microsoft.com/v1.0" "t0"
              shop_schema.

(** The class-level list as the construction of [shop_client] in a fresh
    process leaves it, an empty log, and [answers] still to come. *)
Definition shop_world (answers : list response) : world :=
  mkWorld (custom_ids shop_schema) [] answers.

Definition three_pages : list response :=
  [page_answer (repeat Dict.empty 999) (Some "https://next/1");
   page_answer (repeat Dict.empty 999) (Some "https://next/2");
   page_answer (repeat Dict.empty 42) None].

(** A customer of the shop tenant as the server sends it. *)
Definition shop_customer : record :=
  [("id", JStr "u1"); ("extension_abc_LoyaltyNumber", JNum 7)].

Definition loyalty_only : record := [("extension_abc_LoyaltyNumber", JNum 7)].

(** Stands for [str()] of lists and dicts where none is formatted. *)
Definition no_repr (j : json) : string := "".

Definition new_customer : record :=
  [("givenName", JStr "Ada"); ("surname", JStr "Lovelace");
   ("email", JStr "ada@example.org"); ("password", JStr "S3cret!");
   ("loyaltynumber", JNum 7)].

Definition city_update : record := [("city", JStr "Ghent")].

Definition city_update_with_unknown : record :=
  [("city", JStr "Ghent"); ("shoesize", JNum 42)].

(** ** A tenant that collects the job title *)

Definition hr_schema : list extension :=
  [mkExtension "jobTitle" "Job Title" "builtIn";
   mkExtension "extension_abc_Badge" "Badge" "custom"].

Definition hr_client : User :=
  constructed "hr.onmicrosoft.com" "https://graph.microsoft.com/v1.0" "t0"
              hr_schema.

Definition hr_world (answers : list response) : world :=
  mkWorld (custom_ids hr_schema) [] answers.

Definition hr_answer : response :=
  mkResponse (Object [("jobTitle", JStr "Clerk")]) true.

(** ** A tenant whose custom attribute "Mail" meets the base attribute "mail" *)

Definition mail_schema : list extension :=
  [mkExtension "extension_abc_Mail" "Mail" "custom"].

Definition mail_client : User :=
  constructed "mail.onmicrosoft.com" "https://graph.microsoft.com/v1.0" "t0"
              mail_schema.

Definition mail_customer : record :=
  [("id", JStr "u1");
   ("mail", JStr "a@example.org");
   ("extension_abc_Mail", JStr "b@example.org")].

Definition mail_world : world :=
  mkWorld (custom_ids mail_schema) [] [page_answer [mail_customer] None].

(** ** A fresh process *)

(** A fresh process, and the answers to two constructions against the shop
    tenant. *)
Definition fresh_process : world :=
  mkWorld [] []
    [mkResponse (Token "t0") true; mkResponse (Attributes shop_schema) true;
     mkResponse (Token "t1") true; mkResponse (Attributes shop_schema) true].

(** * The other operations: what the statements about them use *)

(** Between the state before an operation and the state after it: the
    class-level list is as it was, and the log has only grown. *)
Definition frame (w w' : world) : Prop :=
  custom_user_attributes w' = custom_user_attributes w
  /\ exists new, sent w' = sent w ++ new.

Definition framed (A : Type) (m : M A) : Prop :=
  forall w, frame w (snd (m w)).

(** The characters [quote] can write. *)
Definition url_char (c : ascii) : bool :=
  always_safe c || Ascii.eqb c "/" || Ascii.eqb c "%".

(** The value of a hexadecimal digit, and the byte two of them stand for:
    how [%XX] is read back. *)
Definition hex_value (c : ascii) : nat :=
  let n := nat_of_ascii c in
  if (48 <=? n)%nat && (n <=? 57)%nat then n - 48 else n - 55.

Definition byte_of_hex (high low : ascii) : ascii :=
  ascii_of_nat (16 * hex_value high + hex_value low).

Definition search_request (self : User) (email : string) : request :=
  mkRequest GET (search_url self (quote email)) [] [] None.

Definition delete_request (self : User) (userid : string) : request :=
  mkRequest DELETE (api_url self ++ "/users/" ++ userid) [] [] None.

(** The keys [create] assigns by itself, after the translated ones. *)
Definition create_writes : list string :=
  ["displayName"; "mail"; "accountEnabled"; "passwordPolicies";
   "passwordProfile"; "identities"].

Definition password_profile (password : json) : json :=
  JObj [("password", password); ("forceChangePasswordNextSignIn", JBool false)].

(** [client = User(...); client.list(0, include_attributes)]. *)
Definition construct_and_list
    (app_id secret tenant_id tenant_name api_url : string)
    (include_attributes : list string) : M (list record) :=
  self <- User_init app_id secret tenant_id tenant_name api_url ;;
  User_list self 0 include_attributes.

(** [client = User(...); client.get_attributes()]. *)
Definition construct_and_get_attributes
    (app_id secret tenant_id tenant_name api_url : string)
    : M (list string * User) :=
  self <- User_init app_id secret tenant_id tenant_name api_url ;;
  ret (User_get_attributes self).

(** ** More inputs *)

Definition two_shop_customers : list record :=
  [shop_customer; [("id", JStr "u2")]].

Definition sign_in_failure : response :=
  mkResponse (Object [("error", JStr "invalid_client")]) true.

Definition without_password : record :=
  [("givenName", JStr "Ada"); ("email", JStr "ada@example.org")].

(** ** The device-code flow: what the statements about it use *)

(** The lines shown before the browser is opened. *)
Definition shown_lines (user_code code_validity : string) : list string :=
  ["Please enter the following code in your web browser:";
   user_code;
   ("This code is valid for 15 minutes until " ++ code_validity)%string;
   "The browser will open automatically once you press enter."].

Definition enter_prompts : list string :=
  ["Press Enter to open a browser window";
   "Press Enter once you have logged in with your device code"].

(** Whether a list of error codes has the string "7000218". *)
Definition names_code (codes : list json) : bool :=
  existsb (fun e => match e with
                    | JStr s => String.eqb s "7000218"
                    | _ => false
                    end) codes.

Definition is_number (v : json) : bool :=
  match v with JNum _ => true | _ => false end.

(** The terminal and the network after the code was shown, the browser
    opened and the code sent in for a token. *)
Definition after_redeem (app_id tenant_id : string) (scopes : list string)
    (user_code code_validity address device_code : string)
    (rest : list response) (s : terminal * world) : terminal * world :=
  (mkTerminal (printed (fst s) ++ shown_lines user_code code_validity)
              (prompts (fst s) ++ enter_prompts)
              (opened (fst s) ++ [address]),
   mkWorld (custom_user_attributes (snd s))
           (sent (snd s)
              ++ [mkRequest POST
                    ("https://login.microsoftonline.com/" ++ tenant_id
                       ++ "/oauth2/v2.0/devicecode")
                    []
                    [("scope", join " " scopes); ("client_id", app_id)]
                    None;
                  mkRequest POST
                    ("https://login.microsoftonline.com/" ++ tenant_id
                       ++ "/oauth2/v2.0/token")
                    []
                    [("grant_type",
                      "urn:ietf:params:oauth:grant-type:device_code");
                     ("client_id", app_id);
                     ("device_code", device_code)]
                    None])
           rest).

Definition say (line : string) (s : terminal * world) : terminal * world :=
  (mkTerminal (printed (fst s) ++ [line]) (prompts (fst s)) (opened (fst s)),
   snd s).

(** ** A sign-in with a device code *)

Definition quiet_terminal : terminal := mkTerminal [] [] [].

(** A clock that reads 12:00:00 on 2024-01-01 when a call begins, for a
    lifetime of 900 seconds. *)
Definition fixed_clock (seconds : Z) : result string :=
  Ok "2024-01-01 12:15:00".

Definition devicecode_answer : response :=
  mkResponse
    (Object [("user_code", JStr "ABCD1234");
             ("device_code", JStr "dc-1");
             ("verification_uri", JStr "https://microsoft.com/devicelogin");
             ("expires_in", JNum 900)])
    true.

Definition flows_disallowed : response :=
  mkResponse
    (Object [("error", JStr "invalid_client");
             ("error_codes", JArr [JNum 7000218])])
    true.

(** Stands for [str()] of the one body that is printed below. *)
Definition raw_body (j : json) : string :=
  "{'error': 'invalid_client', 'error_codes': [7000218]}".

(** * Facts about dictionaries *)

Lemma mem_list_In (x : string) (xs : list string) :
  mem_list x xs = true <-> In x xs.
Proof.
  unfold mem_list. rewrite existsb_exists. split.
  - intros [y [Hy E]]. apply String.eqb_eq in E. now subst.
  - intros H. exists x. split; [assumption | apply String.eqb_refl].
Qed.

Lemma mem_list_not_In (x : string) (xs : list string) :
  mem_list x xs = false <-> ~ In x xs.
Proof.
  rewrite <- mem_list_In. destruct (mem_list x xs); split; congruence.
Qed.

Module DictFacts.
Import Dict.

Section Facts.
Variable V : Type.
Implicit Types (d : t V) (k : string) (v : V).

Lemma get_set_same k v d : get k (set k v d) = Some v.
Proof.
  induction d as [|[k' v'] d IH]; simpl.
  - now rewrite String.eqb_refl.
  - destruct (String.eqb k' k) eqn:E; simpl; rewrite E; auto.
Qed.

Lemma get_set_other k k' v d : k <> k' -> get k (set k' v d) = get k d.
Proof.
  intros N. induction d as [|[k0 v0] d IH]; simpl.
  - destruct (String.eqb_spec k' k); congruence.
  - destruct (String.eqb_spec k0 k'); simpl.
    + subst. destruct (String.eqb_spec k' k); congruence.
    + destruct (String.eqb_spec k0 k); auto.
Qed.

Lemma get_In k v d : get k d = Some v -> In (k, v) d.
Proof.
  induction d as [|[k' v'] d IH]; simpl; [discriminate|].
  destruct (String.eqb_spec k' k); intros H.
  - left. congruence.
  - right. auto.
Qed.

Lemma get_None k d : get k d = None <-> ~ In k (keys d).
Proof.
  induction d as [|[k' v'] d IH]; simpl.
  - tauto.
  - destruct (String.eqb_spec k' k).
    + split; [discriminate | intros H; exfalso; auto].
    + rewrite IH. tauto.
Qed.

Lemma get_Some_key k v d : get k d = Some v -> In k (keys d).
Proof.
  intros H. apply get_In in H. apply (in_map fst) in H. exact H.
Qed.

Lemma key_get_Some k d : In k (keys d) -> exists v, get k d = Some v.
Proof.
  intros H. destruct (get k d) eqn:E; [eauto|].
  apply get_None in E. contradiction.
Qed.

Lemma In_get k v d : wf d -> In (k, v) d -> get k d = Some v.
Proof.
  unfold wf. induction d as [|[k' v'] d IH]; simpl; [tauto|].
  intros W [H|H].
  - inversion H; subst. now rewrite String.eqb_refl.
  - inversion W; subst. destruct (String.eqb_spec k' k).
    + subst. exfalso. apply H2. apply (in_map fst) in H. exact H.
    + auto.
Qed.

Lemma mem_true k d : mem k d = true <-> In k (keys d).
Proof.
  unfold mem. split.
  - destruct (get k d) eqn:E; [|discriminate].
    intros _. eapply get_Some_key; eauto.
  - intros H. apply key_get_Some in H as [v ->]. reflexivity.
Qed.

Lemma mem_false k d : mem k d = false <-> get k d = None.
Proof. unfold mem. destruct (get k d); split; congruence. Qed.

(** Assigning to a new key appends the binding. *)
Lemma set_fresh k v d : ~ In k (keys d) -> set k v d = d ++ [(k, v)].
Proof.
  induction d as [|[k' v'] d IH]; simpl; intros N; [reflexivity|].
  destruct (String.eqb_spec k' k).
  - exfalso. auto.
  - f_equal. auto.
Qed.

(** Assigning to a key that is there keeps the keys. *)
Lemma keys_set_present k v d : In k (keys d) -> keys (set k v d) = keys d.
Proof.
  induction d as [|[k' v'] d IH]; simpl; [tauto|].
  destruct (String.eqb_spec k' k); simpl; intros H; [reflexivity|].
  f_equal. apply IH. destruct H; [contradiction | assumption].
Qed.

Lemma In_keys_set k k' v d :
  In k (keys (set k' v d)) <-> k = k' \/ In k (keys d).
Proof.
  destruct (in_dec string_dec k' (keys d)) as [I|N].
  - rewrite keys_set_present by assumption.
    split; [auto | intros [->|H]; auto].
  - rewrite set_fresh by assumption. unfold keys.
    rewrite map_app, in_app_iff. simpl. intuition congruence.
Qed.

Lemma wf_set k v d : wf d -> wf (set k v d).
Proof.
  unfold wf. intros W.
  destruct (in_dec string_dec k (keys d)) as [I|N].
  - now rewrite keys_set_present.
  - rewrite set_fresh by assumption. unfold keys.
    rewrite map_app. simpl.
    apply NoDup_app; [assumption | repeat constructor; simpl; tauto |].
    intros x Hx [<-|[]]. contradiction.
Qed.

Lemma get_pop_other k k' d : k <> k' -> get k (pop k' d) = get k d.
Proof.
  intros N. induction d as [|[k0 v0] d IH]; simpl; [reflexivity|].
  destruct (String.eqb_spec k0 k'); simpl.
  - subst. destruct (String.eqb_spec k' k); congruence.
  - destruct (String.eqb_spec k0 k); auto.
Qed.

Lemma keys_pop_incl k d : incl (keys (pop k d)) (keys d).
Proof.
  induction d as [|[k0 v0] d IH]; simpl; [apply incl_refl|].
  destruct (String.eqb_spec k0 k); simpl.
  - apply incl_tl, incl_refl.
  - apply incl_cons; [now left | now apply incl_tl].
Qed.

Lemma wf_pop k d : wf d -> wf (pop k d).
Proof.
  unfold wf. induction d as [|[k0 v0] d IH]; simpl; intros W; [assumption|].
  inversion W; subst.
  destruct (String.eqb_spec k0 k); simpl; [assumption|].
  constructor; [|auto].
  intros H. apply H1. now apply (keys_pop_incl k d).
Qed.

Lemma get_pop_same k d : wf d -> get k (pop k d) = None.
Proof.
  unfold wf. induction d as [|[k0 v0] d IH]; simpl; intros W; [reflexivity|].
  inversion W; subst.
  destruct (String.eqb_spec k0 k); simpl.
  - subst. now apply get_None.
  - destruct (String.eqb_spec k0 k); [contradiction | auto].
Qed.

End Facts.

(** Building a dictionary from items whose keys are all different, on top
    of a dictionary that has none of them, appends the items as they come:
    this is what a dict comprehension does. *)
Lemma fold_set_fresh (A V : Type) (key : A -> string) (val : A -> V)
    (items : list A) (d : t V) :
  NoDup (keys d ++ map key items) ->
  fold_left (fun acc x => set (key x) (val x) acc) items d
  = d ++ map (fun x => (key x, val x)) items.
Proof.
  revert d. induction items as [|x items IH]; simpl; intros d W.
  - now rewrite app_nil_r.
  - assert (N : ~ In (key x) (keys d)).
    { intros H. apply NoDup_remove_2 in W. apply W.
      apply in_or_app. now left. }
    rewrite set_fresh by assumption.
    rewrite IH.
    + now rewrite <- app_assoc.
    + unfold keys in *. rewrite map_app. simpl.
      rewrite <- app_assoc. simpl. exact W.
  Qed.

End DictFacts.

(** * Construction *)

Lemma prepare_mapping_run (extensions : list extension) :
  forall (mapping : Dict.t string) (w : world),
    prepare_mapping extensions mapping w
    = (Ok (mapping_of extensions mapping),
       mkWorld (custom_user_attributes w ++ custom_ids extensions)
               (sent w) (pending w)).
Proof.
  induction extensions as [|e es IH]; intros mapping w; simpl.
  - unfold ret, custom_ids. simpl. rewrite app_nil_r. now destruct w.
  - unfold mapping_of, custom_ids, extension_key, is_builtIn in *. simpl.
    destruct (String.eqb (ext_userFlowAttributeType e) "builtIn") eqn:E; simpl.
    + apply IH.
    + unfold bind, append_custom. rewrite IH. simpl.
      now rewrite <- app_assoc.
Qed.

Lemma User_init_run (app_id secret tenant_id tenant api tok : string)
    (b1 b2 : bool) (extensions : list extension) (rest : list response)
    (w : world) :
  pending w = mkResponse (Token tok) b1
              :: mkResponse (Attributes extensions) b2 :: rest ->
  User_init app_id secret tenant_id tenant api w
  = (Ok (constructed tenant api tok extensions),
     mkWorld (custom_user_attributes w ++ custom_ids extensions)
             (sent w ++ [token_request app_id secret tenant_id;
                         schema_request api])
             rest).
Proof.
  intros P. unfold User_init, connect_mggraph_application, conn_get, bind, http.
  rewrite P. simpl. unfold ret. simpl.
  rewrite prepare_mapping_run. simpl.
  unfold constructed, token_request, schema_request.
  now rewrite <- app_assoc.
Qed.

(** The shop client is what the construction gives in a fresh process. *)
Example shop_client_constructed :
  User_init "app" "secret" "tid" "shop.onmicrosoft.com"
            "https://graph.microsoft.com/v1.0"
            (mkWorld [] []
               [mkResponse (Token "t0") true;
                mkResponse (Attributes shop_schema) true])
  = (Ok shop_client,
     mkWorld ["extension_abc_LoyaltyNumber"]
       [token_request "app" "secret" "tid";
        schema_request "https://graph.microsoft.com/v1.0"]
       []).
Proof. reflexivity. Qed.

Example shop_client_mapping :
  userflow_attribute_mapping shop_client
  = [("city", "city"); ("loyaltynumber", "extension_abc_LoyaltyNumber")].
Proof. reflexivity. Qed.




Lemma mapping_of_wf (extensions : list extension) :
  forall mapping, Dict.wf mapping -> Dict.wf (mapping_of extensions mapping).
Proof.
  induction extensions as [|e es IH]; intros mapping W; simpl; [exact W|].
  apply IH. now apply DictFacts.wf_set.
Qed.

Lemma In_custom_ids (x : string) (extensions : list extension) :
  In x (custom_ids extensions) <->
  exists e, In e extensions /\ ext_userFlowAttributeType e <> "builtIn"
            /\ ext_id e = x.
Proof.
  unfold custom_ids. rewrite in_map_iff. split.
  - intros [e [E I]]. apply filter_In in I as [I B]. exists e.
    unfold is_builtIn in B. repeat split; auto.
    intros T. rewrite T in B. discriminate.
  - intros [e [I [T E]]]. exists e. split; [exact E|].
    apply filter_In. split; [exact I|]. unfold is_builtIn.
    destruct (String.eqb_spec (ext_userFlowAttributeType e) "builtIn");
      [contradiction | reflexivity].
Qed.




(** * Listing: validation of the arguments *)

(** The first name that is not a key of the mapping stops the loop. *)
Lemma attributes_to_fetch_unknown (mapping : Dict.t string)
    (include_attributes : list string) :
  (exists a, In a include_attributes /\ Dict.mem a mapping = false) ->
  exists a, In a include_attributes /\ Dict.mem a mapping = false
    /\ forall fetch,
         attributes_to_fetch mapping include_attributes fetch
         = Raise (ValueError (unknown_attribute_message mapping a)).
Proof.
  induction include_attributes as [|x xs IH]; intros [a [I U]]; [destruct I|].
  simpl. destruct (Dict.get x mapping) eqn:G.
  - destruct I as [->|I].
    + unfold Dict.mem in U. rewrite G in U. discriminate.
    + destruct IH as [a' [I' [U' R]]]; [eauto|].
      exists a'. repeat split; auto.
  - exists x. repeat split; auto.
    unfold Dict.mem. now rewrite G.
Qed.

Lemma attributes_to_fetch_known (mapping : Dict.t string)
    (include_attributes : list string) :
  (forall a, In a include_attributes -> Dict.mem a mapping = true) ->
  forall fetch,
    exists fetch', attributes_to_fetch mapping include_attributes fetch
                   = Ok fetch'.
Proof.
  induction include_attributes as [|x xs IH]; intros K fetch; simpl; [eauto|].
  pose proof (K x (or_introl eq_refl)) as Kx. unfold Dict.mem in Kx.
  destruct (Dict.get x mapping); [|discriminate].
  apply IH. intros a I. apply K. now right.
Qed.

(** C4: a listing that is asked for a name the mapping does not know raises
    ValueError, with the keys of the mapping in the message, and leaves the
    state as it was: no request has been made. *)
Theorem C4_unknown_attribute_rejected (self : User) (max : Z)
    (include_attributes : list string) (w : world) :
  (exists a, In a include_attributes
             /\ Dict.mem a (userflow_attribute_mapping self) = false) ->
  exists a,
    In a include_attributes
    /\ Dict.mem a (userflow_attribute_mapping self) = false
    /\ User_list self max include_attributes w
       = (Raise (ValueError
                   (a ++ " is not a known attribute. Only "
                      ++ join "," (Dict.keys (userflow_attribute_mapping self))
                      ++ " are allowed")),
          w).
Proof.
  intros U. destruct (attributes_to_fetch_unknown _ _ U) as [a [I [Ua R]]].
  exists a. repeat split; auto.
  unfold User_list, bind, lift. now rewrite R.
Qed.

Lemma C4_unknown_attribute_rejected_witness :
  exists a,
    In a ["city"; "unknownfield"]
    /\ Dict.mem a (userflow_attribute_mapping shop_client) = false
    /\ User_list shop_client 10 ["city"; "unknownfield"] (shop_world three_pages)
       = (Raise (ValueError
                   (a ++ " is not a known attribute. Only "
                      ++ join "," (Dict.keys (userflow_attribute_mapping shop_client))
                      ++ " are allowed")),
          shop_world three_pages).
Proof.
  apply (@C4_unknown_attribute_rejected shop_client 10
           ["city"; "unknownfield"] (shop_world three_pages)).
  exists "unknownfield". split; [simpl; tauto | reflexivity].
Defined.

(** What the message reads for the shop tenant. *)
Example unknown_attribute_message_shop :
  unknown_attribute_message (userflow_attribute_mapping shop_client)
                            "unknownfield"
  = "unknownfield is not a known attribute. Only city,loyaltynumber are allowed".
Proof. reflexivity. Qed.

(** Above 999 the listing raises before it makes a request. *)
Lemma list_above_999_sends_nothing (self : User) (max : Z)
    (include_attributes : list string) (w : world) :
  (999 < max)%Z ->
  exists e, User_list self max include_attributes w = (Raise e, w).
Proof.
  intros H. unfold User_list, bind, lift.
  destruct (attributes_to_fetch _ _ _); [|eauto].
  destruct (Z.eqb_spec max 0); [lia|].
  destruct (Z.leb_spec max 999); [lia|].
  unfold raise. eauto.
Qed.

(** C2: below 0 the test [max <= 999] holds, and the listing does make its
    request, with the negative [$top]; the rejection of line 189 is reached
    above 999 only. *)
Theorem C2_negative_max_sends_request (self : User) (max : Z)
    (include_attributes : list string) (w : world) :
  (max < 0)%Z ->
  (forall a, In a include_attributes ->
             Dict.mem a (userflow_attribute_mapping self) = true) ->
  exists fetch,
    attributes_to_fetch (userflow_attribute_mapping self) include_attributes
                        base_user_attributes = Ok fetch
    /\ sent (snd (User_list self max include_attributes w))
       = sent w ++ [users_request (api_url self ++ "/users")
                                  (join "," fetch) max].
Proof.
  intros H K.
  destruct (attributes_to_fetch_known _ _ K base_user_attributes) as [fetch F].
  exists fetch. split; [exact F|].
  unfold User_list, bind, lift. rewrite F.
  destruct (Z.eqb_spec max 0); [lia|].
  destruct (Z.leb_spec max 999); [|lia].
  unfold http, read_custom, ret.
  destruct (pending w); simpl; [reflexivity|].
  unfold lift. reflexivity.
Qed.

Lemma C2_negative_max_sends_request_witness :
  sent (snd (User_list shop_client (-1) [] (shop_world [page_answer [] None])))
  = [users_request "https://graph.microsoft.com/v1.0/users"
       "id,givenName,surname,jobTitle,mail,creationType,identities,accountEnabled"
       (-1)].
Proof.
  destruct (@C2_negative_max_sends_request shop_client (-1) []
              (shop_world [page_answer [] None]))
    as [fetch [F S]].
  - lia.
  - intros a [].
  - rewrite S. simpl in F. inversion F. reflexivity.
Defined.

(** With max = -1 the listing fails only after the request, on the answer. *)
Example list_minus_one_run :
  User_list shop_client (-1) [] (shop_world [page_answer [] None])
  = (Raise (AttributeError "'str' object has no attribute 'items'"),
     mkWorld (custom_ids shop_schema)
       [users_request "https://graph.microsoft.com/v1.0/users"
          "id,givenName,surname,jobTitle,mail,creationType,identities,accountEnabled"
          (-1)]
       []).
Proof. reflexivity. Qed.

(** * Listing: pages *)

Lemma follow_links_chain (next : option string) (answers : list response)
    (records : list record) (links : list string) :
  chain next answers records links ->
  forall (all_customers : list record) (log : list request)
         (rest : list response),
    follow_links next all_customers log (answers ++ rest)
    = (Ok (all_customers ++ records),
       (log ++ map link_request links, rest)).
Proof.
  induction 1 as [|link answer value next answers records links B C IH];
    intros all_customers log rest; simpl.
  - rewrite !app_nil_r. now destruct rest.
  - rewrite B, IH. unfold link_request.
    now rewrite <- !app_assoc.
Qed.

(** * Listing: the names of the fields *)

Lemma reversed_keys_from (mapping : Dict.t string) :
  forall (reversed : Dict.t string) (a : string),
    In a (Dict.keys
            (fold_left (fun r kv => Dict.set (snd kv) (fst kv) r)
                       mapping reversed))
    <-> In a (Dict.keys reversed) \/ In a (Dict.values mapping).
Proof.
  induction mapping as [|[k v] mapping IH]; intros reversed a; simpl.
  - tauto.
  - rewrite IH, DictFacts.In_keys_set. intuition congruence.
Qed.

(** The reversed mapping has a name for exactly the values of the mapping. *)
Lemma reversed_mapping_keys (mapping : Dict.t string) (a : string) :
  In a (Dict.keys (reversed_mapping mapping)) <-> In a (Dict.values mapping).
Proof.
  unfold reversed_mapping. rewrite reversed_keys_from. simpl. tauto.
Qed.

(** The loop over the items of a customer ends without KeyError when the
    reversed mapping has a name for each custom key it meets. *)
Lemma remap_items_returns (custom : list string) (reversed : Dict.t string)
    (items : list (string * json)) :
  (forall a, In a (Dict.keys items) -> In a custom ->
             In a (Dict.keys reversed)) ->
  forall remapped, exists out,
    remap_items custom reversed items remapped = Ok out.
Proof.
  induction items as [|[a v] items IH]; intros K remapped; simpl; [eauto|].
  assert (K' : forall a, In a (Dict.keys items) -> In a custom ->
                         In a (Dict.keys reversed)).
  { intros a' I. apply K. now right. }
  destruct (mem_list a custom) eqn:C; [|now apply IH].
  apply mem_list_In in C.
  destruct (DictFacts.key_get_Some a reversed (K a (or_introl eq_refl) C))
    as [name ->].
  now apply IH.
Qed.

Lemma remap_customers_length (custom : list string) (reversed : Dict.t string)
    (customers : list record) :
  forall out, remap_customers custom reversed customers = Ok out ->
              length out = length customers.
Proof.
  induction customers as [|c cs IH]; simpl; intros out H.
  - now inversion H.
  - destruct (remap_customer custom reversed c); [|discriminate].
    destruct (remap_customers custom reversed cs); [|discriminate].
    inversion H; subst. simpl. f_equal. now apply IH.
Qed.

Lemma remap_customers_returns (custom : list string) (reversed : Dict.t string)
    (customers : list record) :
  (forall a, In a custom -> In a (Dict.keys reversed)) ->
  exists out, remap_customers custom reversed customers = Ok out.
Proof.
  intros K. induction customers as [|c cs [out IH]]; simpl; [eauto|].
  destruct (remap_items_returns custom reversed c (fun a _ => K a) Dict.empty)
    as [o R].
  unfold remap_customer. rewrite R, IH. eauto.
Qed.

(** C5: with max = 0 the listing asks for pages of 999, then follows the
    link of each page it gets until a page comes without one; the requests
    are the first one (a GET on /users with [$top] = 999, the filter on
    local accounts, and the selected attributes joined in some order) and
    one per link, in order, the answers are used up and no other, and the
    records of all the pages, in order, go through the renaming of the
    fields.  The result has as many records as the pages held, and there is
    a result whenever the mapping has a value for each id of the class-level
    list. *)
Theorem C5_list_all_pages (self : User) (include_attributes fetch : list string)
    (first : response) (value : list record) (next : option string)
    (answers rest : list response) (records : list record)
    (links : list string) (w : world) :
  attributes_to_fetch (userflow_attribute_mapping self) include_attributes
                      base_user_attributes = Ok fetch ->
  pending w = first :: answers ++ rest ->
  resp_json first = Page value next ->
  chain next answers records links ->
  let outcome :=
    remap_customers (custom_user_attributes w)
      (reversed_mapping (userflow_attribute_mapping self))
      (value ++ records) in
  (exists order,
      Permutation order fetch
      /\ User_list self 0 include_attributes w
         = (outcome,
            mkWorld (custom_user_attributes w)
              (sent w
                 ++ mkRequest GET (api_url self ++ "/users")
                      [("$select", JStr (join "," order));
                       ("$top", JNum 999);
                       ("$filter", JStr "creationType eq 'LocalAccount'")]
                      [] None
                 :: map link_request links)
              rest))
  /\ (forall out, outcome = Ok out ->
                  length out = length value + length records)
  /\ ((forall a, In a (custom_user_attributes w) ->
                 In a (Dict.values (userflow_attribute_mapping self))) ->
      exists out, outcome = Ok out).
Proof.
  intros F P B C outcome. split; [|split].
  - exists fetch. split; [apply Permutation_refl|].
    unfold User_list, bind, lift. rewrite F. simpl.
    unfold http. rewrite P. simpl. rewrite B.
    unfold follow, bind. simpl.
    rewrite (follow_links_chain C). simpl.
    unfold ret, read_custom, fix_fieldnames. simpl.
    rewrite <- app_assoc. reflexivity.
  - intros out H. apply remap_customers_length in H.
    now rewrite H, length_app.
  - intros K. apply remap_customers_returns.
    intros a I. apply reversed_mapping_keys. auto.
Qed.

(** Three pages of 999, 999 and 42 records give 2040 records, for three
    requests. *)
Lemma C5_list_all_pages_witness :
  exists out order,
    Permutation order base_user_attributes
    /\ User_list shop_client 0 [] (shop_world three_pages)
       = (Ok out,
          mkWorld (custom_ids shop_schema)
            [mkRequest GET "https://graph.microsoft.com/v1.0/users"
               [("$select", JStr (join "," order));
                ("$top", JNum 999);
                ("$filter", JStr "creationType eq 'LocalAccount'")]
               [] None;
             link_request "https://next/1";
             link_request "https://next/2"]
            [])
    /\ length out = 2040.
Proof.
  destruct (@C5_list_all_pages shop_client [] base_user_attributes
              (page_answer (repeat Dict.empty 999) (Some "https://next/1"))
              (repeat Dict.empty 999) (Some "https://next/1")
              [page_answer (repeat Dict.empty 999) (Some "https://next/2");
               page_answer (repeat Dict.empty 42) None]
              []
              (repeat Dict.empty 999 ++ repeat Dict.empty 42 ++ [])
              ["https://next/1"; "https://next/2"]
              (shop_world three_pages))
    as [[order [Pm R]] [L T]].
  - reflexivity.
  - reflexivity.
  - reflexivity.
  - apply chain_next with (next := Some "https://next/2"); [reflexivity|].
    apply chain_next with (next := None); [reflexivity|].
    apply chain_end.
  - destruct T as [out E].
    + intros a [<-|[]]. simpl. tauto.
    + exists out, order. split; [exact Pm|]. split.
      * rewrite R. now rewrite E.
      * rewrite (L out E). reflexivity.
Defined.

(** * Profile *)

Lemma full_mapping_items (mapping : Dict.t string) (graph_user_profile : record) :
  Dict.wf mapping ->
  full_mapping mapping graph_user_profile
  = map (fun kv => (fst kv, sent_or_null graph_user_profile (snd kv))) mapping.
Proof.
  intros W. unfold full_mapping.
  apply (DictFacts.fold_set_fresh fst
           (fun kv => sent_or_null graph_user_profile (snd kv))
           mapping Dict.empty).
  exact W.
Qed.

Lemma full_mapping_keys (mapping : Dict.t string) (graph_user_profile : record) :
  Dict.wf mapping ->
  Dict.keys (full_mapping mapping graph_user_profile) = Dict.keys mapping.
Proof.
  intros W. rewrite full_mapping_items by assumption.
  unfold Dict.keys. rewrite map_map. reflexivity.
Qed.

Lemma get_map_values (V W : Type) (f : V -> W) (d : Dict.t V) (k : string) :
  Dict.get k (map (fun kv => (fst kv, f (snd kv))) d)
  = option_map f (Dict.get k d).
Proof.
  induction d as [|[a v] d IH]; simpl; [reflexivity|].
  destruct (String.eqb a k); [reflexivity | exact IH].
Qed.

Lemma full_mapping_get (mapping : Dict.t string) (graph_user_profile : record)
    (k : string) :
  Dict.wf mapping ->
  Dict.get k (full_mapping mapping graph_user_profile)
  = option_map (sent_or_null graph_user_profile) (Dict.get k mapping).
Proof.
  intros W. rewrite full_mapping_items by assumption.
  apply get_map_values.
Qed.

Lemma full_mapping_wf (mapping : Dict.t string) (graph_user_profile : record) :
  Dict.wf mapping -> Dict.wf (full_mapping mapping graph_user_profile).
Proof.
  intros W. unfold Dict.wf. now rewrite full_mapping_keys.
Qed.

(** Popping a list of keys from a dictionary leaves the other bindings. *)
Lemma get_pop_all (V : Type) (unwanted : list string) (k : string) :
  forall d : Dict.t V,
    Dict.wf d ->
    Dict.get k (fold_left (fun p a => Dict.pop a p) unwanted d)
    = if mem_list k unwanted then None else Dict.get k d.
Proof.
  induction unwanted as [|a unwanted IH]; intros d W; simpl; [reflexivity|].
  rewrite IH by now apply DictFacts.wf_pop.
  destruct (String.eqb_spec k a) as [->|N]; simpl.
  - rewrite DictFacts.get_pop_same by assumption.
    now destruct (mem_list a unwanted).
  - now rewrite DictFacts.get_pop_other.
Qed.

Lemma User_profile_run (self : User) (userid : string)
    (user_attributes : option (list string)) (answer : response)
    (graph_user_profile : record) (rest : list response) (w : world) :
  pending w = answer :: rest ->
  resp_json answer = Object graph_user_profile ->
  User_profile self userid user_attributes w
  = (Ok (remove_unwanted
           (full_mapping (userflow_attribute_mapping self) graph_user_profile)),
     mkWorld (custom_user_attributes w)
       (sent w ++ [mkRequest GET
                     (api_url self ++ "/users/" ++ userid ++ "?$select="
                        ++ join ","
                             (match user_attributes with
                              | None => all_user_attributes self
                              | Some l => l
                              end))
                     [] [] None])
       rest).
Proof.
  intros P B. unfold User_profile, conn_get, bind, http.
  rewrite P. simpl. rewrite B. reflexivity.
Qed.

(** C6 (as amended): the profile has, for every name of the mapping that is
    not on the denylist, the field the server sent under the mapped name, or
    null when the server left it out; it has no denylisted name, and no name
    the mapping does not have. *)
Theorem C6_profile_shape (self : User) (userid : string)
    (user_attributes : option (list string)) (answer : response)
    (graph_user_profile : record) (rest : list response) (w : world) :
  Dict.wf (userflow_attribute_mapping self) ->
  pending w = answer :: rest ->
  resp_json answer = Object graph_user_profile ->
  exists user_profile w',
    User_profile self userid user_attributes w = (Ok user_profile, w')
    /\ (forall attribute mapped_attribute,
          Dict.get attribute (userflow_attribute_mapping self)
          = Some mapped_attribute ->
          ~ In attribute unwanted_attributes ->
          Dict.get attribute user_profile
          = Some (match Dict.get mapped_attribute graph_user_profile with
                  | Some v => v
                  | None => JNull
                  end))
    /\ (forall attribute,
          In attribute unwanted_attributes ->
          Dict.mem attribute user_profile = false)
    /\ (forall attribute,
          Dict.mem attribute user_profile = true ->
          Dict.mem attribute (userflow_attribute_mapping self) = true).
Proof.
  intros W P B. eexists. eexists.
  split; [eapply User_profile_run; eassumption|].
  pose proof (full_mapping_wf graph_user_profile W) as Wf.
  unfold remove_unwanted. split; [|split].
  - intros a m G N. rewrite get_pop_all by assumption.
    apply mem_list_not_In in N. rewrite N.
    rewrite full_mapping_get by assumption. now rewrite G.
  - intros a I. apply DictFacts.mem_false.
    rewrite get_pop_all by assumption.
    apply mem_list_In in I. now rewrite I.
  - intros a. unfold Dict.mem. rewrite get_pop_all by assumption.
    destruct (mem_list a unwanted_attributes); [discriminate|].
    rewrite full_mapping_get by assumption.
    now destruct (Dict.get a (userflow_attribute_mapping self)).
Qed.

Lemma C6_profile_shape_witness :
  exists user_profile w',
    User_profile hr_client "u1" None (hr_world [hr_answer])
    = (Ok user_profile, w')
    /\ Dict.get "badge" user_profile = Some JNull
    /\ Dict.mem "jobTitle" user_profile = false.
Proof.
  destruct (@C6_profile_shape hr_client "u1" None hr_answer
              [("jobTitle", JStr "Clerk")] [] (hr_world [hr_answer]))
    as [p [w' [R [H1 [H2 _]]]]].
  - unfold Dict.wf. simpl. repeat constructor; simpl; intuition discriminate.
  - reflexivity.
  - reflexivity.
  - exists p, w'. split; [exact R|]. split.
    + apply (H1 "badge" "extension_abc_Badge"); [reflexivity|].
      simpl. intuition discriminate.
    + apply H2. simpl. tauto.
Defined.

(** C6 as stated fails: the mapping of this tenant has the name "jobTitle",
    the server sends the field, and the profile does not have it. *)
Lemma C6_mapped_name_removed :
  exists user_profile w',
    User_profile hr_client "u1" None (hr_world [hr_answer])
    = (Ok user_profile, w')
    /\ Dict.mem "jobTitle" (userflow_attribute_mapping hr_client) = true
    /\ Dict.mem "jobTitle" user_profile = false.
Proof.
  eexists. eexists. split; [eapply User_profile_run; reflexivity|].
  split; reflexivity.
Qed.

(** * Create and update *)

Ltac get_set :=
  repeat first
    [ rewrite DictFacts.get_set_same
    | rewrite DictFacts.get_set_other by discriminate ].

Lemma map_known_fields_from_wf (user : record) (mapping : Dict.t string) :
  forall mapped : record,
    Dict.wf mapped ->
    Dict.wf (fold_left
               (fun mapped kv =>
                  match Dict.get (fst kv) user with
                  | Some v => Dict.set (snd kv) v mapped
                  | None => mapped
                  end)
               mapping mapped).
Proof.
  induction mapping as [|[a m] mapping IH]; intros mapped W; simpl; [exact W|].
  apply IH. destruct (Dict.get a user); [now apply DictFacts.wf_set | exact W].
Qed.

Lemma map_known_fields_wf (mapping : Dict.t string) (user : record) :
  Dict.wf (map_known_fields mapping user).
Proof. apply map_known_fields_from_wf. constructor. Qed.

(** The translation looks at the input under the keys of the mapping only. *)
Lemma map_known_fields_agree (mapping : Dict.t string) (user user' : record) :
  (forall k, Dict.mem k mapping = true -> Dict.get k user = Dict.get k user') ->
  map_known_fields mapping user = map_known_fields mapping user'.
Proof.
  unfold map_known_fields. generalize (@Dict.empty json) as mapped.
  induction mapping as [|[a m] mapping IH]; intros mapped A; simpl;
    [reflexivity|].
  rewrite <- (A a).
  - apply IH. intros k K. apply A.
    unfold Dict.mem in *. simpl. destruct (String.eqb a k); auto.
  - unfold Dict.mem. simpl. now rewrite String.eqb_refl.
Qed.

Lemma User_update_run (self : User) (userid : string) (user : record)
    (w : world) :
  User_update self userid user w
  = match pending w with
    | [] => (Raise ConnectError,
             mkWorld (custom_user_attributes w)
               (sent w ++ [update_request self userid
                             (map_known_fields (userflow_attribute_mapping self)
                                               user)])
               [])
    | answer :: rest =>
        (Ok (resp_bool answer),
         mkWorld (custom_user_attributes w)
           (sent w ++ [update_request self userid
                         (map_known_fields (userflow_attribute_mapping self)
                                           user)])
           rest)
    end.
Proof.
  unfold User_update, conn_patch, bind, http, update_request.
  now destruct (pending w).
Qed.

Section CreateFacts.

Variable py_repr : json -> string.

Lemma new_user_payload_returns (self : User) (user : record)
    (email password : json) :
  Dict.get "email" user = Some email ->
  Dict.get "password" user = Some password ->
  new_user_payload py_repr self user
  = Ok (Dict.set "identities"
          (JArr [JObj [("issuer", JStr (tenant_name self));
                       ("issuerAssignedId", email);
                       ("signInType", JStr "emailAddress")]])
       (Dict.set "passwordProfile"
          (JObj [("password", password);
                 ("forceChangePasswordNextSignIn", JBool false)])
       (Dict.set "passwordPolicies" (JStr "DisablePasswordExpiration")
       (Dict.set "accountEnabled" (JBool true)
       (Dict.set "mail" email
       (Dict.set "displayName"
          (match Dict.get "displayName" user with
           | Some v => v
           | None =>
               JStr (py_format py_repr (Dict.get "givenName" user) ++ " "
                       ++ py_format py_repr (Dict.get "surname" user))
           end)
       (map_known_fields (userflow_attribute_mapping self) user))))))).
Proof.
  intros E P. unfold new_user_payload, subscript. now rewrite E, P.
Qed.

Lemma User_create_sent (self : User) (user payload : record) (w : world) :
  new_user_payload py_repr self user = Ok payload ->
  sent (snd (User_create py_repr self user w))
  = sent w ++ [create_request self payload].
Proof.
  intros N. unfold User_create, bind, lift, conn_post, http. rewrite N.
  now destruct (pending w).
Qed.

(** C7: for an input with email and password, the object [create] posts is
    a dictionary with accountEnabled true, passwordPolicies
    "DisablePasswordExpiration", the password profile with the given
    password and no forced change, one identity with the tenant name as
    issuer and the email as issuerAssignedId, and as displayName the one of
    the input, or without one the given name and the surname with a space
    between. *)
Theorem C7_create_payload (self : User) (user : record) (email password : json)
    (w : world) :
  Dict.get "email" user = Some email ->
  Dict.get "password" user = Some password ->
  exists payload,
    sent (snd (User_create py_repr self user w))
    = sent w ++ [create_request self payload]
    /\ Dict.wf payload
    /\ Dict.get "accountEnabled" payload = Some (JBool true)
    /\ Dict.get "passwordPolicies" payload
       = Some (JStr "DisablePasswordExpiration")
    /\ Dict.get "passwordProfile" payload
       = Some (JObj [("password", password);
                     ("forceChangePasswordNextSignIn", JBool false)])
    /\ Dict.get "identities" payload
       = Some (JArr [JObj [("issuer", JStr (tenant_name self));
                           ("issuerAssignedId", email);
                           ("signInType", JStr "emailAddress")]])
    /\ (forall name, Dict.get "displayName" user = Some name ->
                     Dict.get "displayName" payload = Some name)
    /\ (Dict.get "displayName" user = None ->
        Dict.get "displayName" payload
        = Some (JStr (py_format py_repr (Dict.get "givenName" user) ++ " "
                        ++ py_format py_repr (Dict.get "surname" user))))
    /\ (forall givenName surname,
          Dict.get "displayName" user = None ->
          Dict.get "givenName" user = Some (JStr givenName) ->
          Dict.get "surname" user = Some (JStr surname) ->
          Dict.get "displayName" payload
          = Some (JStr (givenName ++ " " ++ surname))).
Proof.
  intros E P. eexists.
  split; [apply User_create_sent; apply (new_user_payload_returns self user E P)|].
  split.
  { repeat apply DictFacts.wf_set. apply map_known_fields_wf. }
  repeat split; get_set; try reflexivity.
  - intros name D. now rewrite D.
  - intros D. now rewrite D.
  - intros g s D G S. now rewrite D, G, S.
Qed.

(** C3 (as amended): [create] and [update] do not look at the names of the
    input that the mapping does not know.  Two inputs that agree on the
    names of the mapping make [update] behave the same, and [update] always
    makes its one PATCH request; they give [create] the same object to post
    when they also agree on the names [create] reads by itself, and with
    email and password in the input [create] makes its one POST request. *)
Theorem C3_unknown_names_ignored (self : User) (userid : string)
    (user user' : record) (w : world) :
  (forall k, Dict.mem k (userflow_attribute_mapping self) = true ->
             Dict.get k user = Dict.get k user') ->
  User_update self userid user w = User_update self userid user' w
  /\ sent (snd (User_update self userid user w))
     = sent w ++ [update_request self userid
                    (map_known_fields (userflow_attribute_mapping self) user)]
  /\ (pending w <> [] ->
      exists acknowledged w',
        User_update self userid user w = (Ok acknowledged, w'))
  /\ ((forall k, In k create_reads -> Dict.get k user = Dict.get k user') ->
      new_user_payload py_repr self user = new_user_payload py_repr self user'
      /\ User_create py_repr self user w = User_create py_repr self user' w)
  /\ (Dict.mem "email" user = true -> Dict.mem "password" user = true ->
      exists payload,
        new_user_payload py_repr self user = Ok payload
        /\ sent (snd (User_create py_repr self user w))
           = sent w ++ [create_request self payload]).
Proof.
  intros A. pose proof (map_known_fields_agree _ user user' A) as T.
  split; [|split; [|split; [|split]]].
  - rewrite !User_update_run. now rewrite T.
  - rewrite User_update_run. now destruct (pending w).
  - intros N. rewrite User_update_run.
    destruct (pending w); [congruence | eauto].
  - intros R.
    assert (N : new_user_payload py_repr self user
                = new_user_payload py_repr self user').
    { unfold new_user_payload, subscript. rewrite T.
      rewrite (R "displayName"), (R "givenName"), (R "surname"),
        (R "email"), (R "password"); simpl; tauto. }
    split; [exact N|]. unfold User_create. now rewrite N.
  - unfold Dict.mem. intros E P.
    destruct (Dict.get "email" user) as [email|] eqn:GE; [|discriminate].
    destruct (Dict.get "password" user) as [password|] eqn:GP; [|discriminate].
    eexists. split; [apply (new_user_payload_returns self user GE GP)|].
    apply User_create_sent. apply (new_user_payload_returns self user GE GP).
Qed.

End CreateFacts.

Lemma C7_create_payload_witness :
  exists payload,
    sent (snd (User_create no_repr shop_client new_customer (shop_world [])))
    = [create_request shop_client payload]
    /\ Dict.get "accountEnabled" payload = Some (JBool true)
    /\ Dict.get "identities" payload
       = Some (JArr [JObj [("issuer", JStr "shop.onmicrosoft.com");
                           ("issuerAssignedId", JStr "ada@example.org");
                           ("signInType", JStr "emailAddress")]])
    /\ Dict.get "displayName" payload = Some (JStr "Ada Lovelace").
Proof.
  destruct (@C7_create_payload no_repr shop_client new_customer
              (JStr "ada@example.org") (JStr "S3cret!") (shop_world []))
    as [payload [S [_ [A [_ [_ [I [_ [_ D]]]]]]]]].
  - reflexivity.
  - reflexivity.
  - exists payload. split; [exact S|]. split; [exact A|]. split; [exact I|].
    apply (D "Ada" "Lovelace"); reflexivity.
Defined.

Lemma C3_unknown_names_ignored_witness :
  User_update shop_client "u1" city_update_with_unknown
              (shop_world [mkResponse (Object []) true])
  = User_update shop_client "u1" city_update
                (shop_world [mkResponse (Object []) true])
  /\ sent (snd (User_update shop_client "u1" city_update_with_unknown
                  (shop_world [mkResponse (Object []) true])))
     = [update_request shop_client "u1" [("city", JStr "Ghent")]].
Proof.
  destruct (@C3_unknown_names_ignored no_repr shop_client "u1"
              city_update_with_unknown city_update
              (shop_world [mkResponse (Object []) true]))
    as [U [S _]].
  - intros k K.
    destruct (string_dec "city" k) as [<-|N1]; [reflexivity|].
    destruct (string_dec "loyaltynumber" k) as [<-|N2]; [reflexivity|].
    apply String.eqb_neq in N1, N2.
    change (userflow_attribute_mapping shop_client)
      with [("city", "city");
            ("loyaltynumber", "extension_abc_LoyaltyNumber")] in K.
    unfold Dict.mem in K. cbn [Dict.get] in K.
    rewrite N1, N2 in K. discriminate.
  - split; [exact U | exact S].
Defined.

(** C3 as stated fails: the input names "shoesize", which the mapping does
    not have, and [update] makes its request and returns. *)
Lemma C3_unknown_name_sent_anyway :
  Dict.mem "shoesize" city_update_with_unknown = true
  /\ Dict.mem "shoesize" (userflow_attribute_mapping shop_client) = false
  /\ User_update shop_client "u1" city_update_with_unknown
                 (shop_world [mkResponse (Object []) true])
     = (Ok true,
        mkWorld (custom_ids shop_schema)
          [update_request shop_client "u1" [("city", JStr "Ghent")]]
          []).
Proof. repeat split. Qed.

(** * Dictionaries built by a loop of assignments *)

Section Assignments.

Variables (A V : Type) (key : A -> string) (val : A -> V).

Lemma assign_all_keys (items : list A) :
  forall (d : Dict.t V) (k : string),
    In k (Dict.keys (assign_all key val items d))
    <-> In k (Dict.keys d) \/ In k (map key items).
Proof.
  induction items as [|x items IH]; intros d k; simpl.
  - tauto.
  - unfold assign_all in *. simpl. rewrite IH, DictFacts.In_keys_set.
    intuition congruence.
Qed.

Lemma assign_all_get (items : list A) :
  forall (d : Dict.t V) (k : string) (v : V),
    Dict.get k (assign_all key val items d) = Some v ->
    Dict.get k d = Some v
    \/ exists x, In x items /\ key x = k /\ val x = v.
Proof.
  induction items as [|x items IH]; intros d k v G; simpl in *; [now left|].
  apply IH in G as [G|[y [I [K E]]]].
  - destruct (string_dec k (key x)) as [->|N].
    + rewrite DictFacts.get_set_same in G. inversion G. right. eauto.
    + rewrite DictFacts.get_set_other in G by assumption. now left.
  - right. eauto.
Qed.

Lemma assign_all_wf (items : list A) :
  forall d : Dict.t V, Dict.wf d -> Dict.wf (assign_all key val items d).
Proof.
  induction items as [|x items IH]; intros d W; simpl; [exact W|].
  apply IH. now apply DictFacts.wf_set.
Qed.

End Assignments.

(** * The renaming of the fields *)

Section Renaming.

Variables (custom : list string) (reversed : Dict.t string).

(** Where no KeyError comes up, the loop over the items is a loop of
    assignments under [out_name]. *)
Lemma remap_items_assign (items : list (string * json)) :
  (forall a, In a (Dict.keys items) -> In a custom ->
             In a (Dict.keys reversed)) ->
  forall remapped : record,
    remap_items custom reversed items remapped
    = Ok (assign_all (fun item => out_name custom reversed (fst item))
                     snd items remapped).
Proof.
  induction items as [|[a v] items IH]; intros K remapped; simpl;
    [reflexivity|].
  assert (K' : forall a, In a (Dict.keys items) -> In a custom ->
                         In a (Dict.keys reversed)).
  { intros a' I. apply K. now right. }
  unfold out_name at 2. simpl.
  destruct (mem_list a custom) eqn:C; [|now apply IH].
  apply mem_list_In in C.
  destruct (DictFacts.key_get_Some a reversed (K a (or_introl eq_refl) C))
    as [name ->].
  now apply IH.
Qed.

Lemma out_name_not_custom (a : string) :
  ~ In a custom -> out_name custom reversed a = a.
Proof.
  intros N. unfold out_name. apply mem_list_not_In in N. now rewrite N.
Qed.

Lemma out_name_custom (a name : string) :
  In a custom -> Dict.get a reversed = Some name ->
  out_name custom reversed a = name.
Proof.
  intros C G. unfold out_name. apply mem_list_In in C. now rewrite C, G.
Qed.

(** With the names all different, the loop only renames. *)
Lemma remap_customer_exact (customer : record) :
  (forall a, In a (Dict.keys customer) -> In a custom ->
             In a (Dict.keys reversed)) ->
  NoDup (map (out_name custom reversed) (Dict.keys customer)) ->
  remap_customer custom reversed customer
  = Ok (map (rename_item custom reversed) customer).
Proof.
  intros K D. unfold remap_customer. rewrite remap_items_assign by exact K.
  f_equal. unfold assign_all.
  rewrite (DictFacts.fold_set_fresh
             (fun item : string * json => out_name custom reversed (fst item))
             snd customer Dict.empty).
  - reflexivity.
  - simpl. unfold Dict.keys in D. rewrite map_map in D. exact D.
Qed.

Lemma renamed_wf (customer : record) :
  NoDup (map (out_name custom reversed) (Dict.keys customer)) ->
  Dict.wf (map (rename_item custom reversed) customer).
Proof.
  intros D. unfold Dict.wf, Dict.keys in *. rewrite map_map in *. exact D.
Qed.

(** C10 (as amended): when the reversed mapping has a name for each custom
    key of the record, the renaming returns a record in which every key of
    the input that is not custom is still a key; every key is a key of the
    input that is not custom, or the name the reversed mapping has for a
    custom key of the input; every value comes from the input, under the
    key it had or under the name of that key.  When the names under which
    the fields are stored are all different, the record is the input with
    its keys renamed, values and order kept: a key that is not custom keeps
    its value, and the value of a custom key is found under its name. *)
Theorem C10_remap_frame (customer : record) :
  (forall a, In a (Dict.keys customer) -> In a custom ->
             In a (Dict.keys reversed)) ->
  exists remapped_customer,
    remap_customer custom reversed customer = Ok remapped_customer
    /\ (forall k, In k (Dict.keys customer) -> ~ In k custom ->
                  In k (Dict.keys remapped_customer))
    /\ (forall k, In k (Dict.keys remapped_customer) ->
          (In k (Dict.keys customer) /\ ~ In k custom)
          \/ exists a, In a (Dict.keys customer) /\ In a custom
                       /\ Dict.get a reversed = Some k)
    /\ (forall k v, Dict.get k remapped_customer = Some v ->
          exists a, In (a, v) customer /\ out_name custom reversed a = k)
    /\ (NoDup (map (out_name custom reversed) (Dict.keys customer)) ->
        remapped_customer = map (rename_item custom reversed) customer
        /\ (forall k v, In (k, v) customer -> ~ In k custom ->
                        Dict.get k remapped_customer = Some v)
        /\ (forall a v, In (a, v) customer -> In a custom ->
              exists name, Dict.get a reversed = Some name
                           /\ Dict.get name remapped_customer = Some v)).
Proof.
  intros K. eexists. split; [apply remap_items_assign; exact K|].
  set (name := fun item : string * json => out_name custom reversed (fst item)).
  split; [|split; [|split]].
  - intros k I N. apply assign_all_keys. right.
    unfold Dict.keys in I. apply in_map_iff in I as [[a v] [E I]].
    simpl in E. subst a. apply in_map_iff. exists (k, v).
    split; [apply out_name_not_custom; exact N | exact I].
  - intros k I. apply assign_all_keys in I as [[]|I].
    apply in_map_iff in I as [[a v] [E I]]. unfold name in E. simpl in E.
    assert (Ia : In a (Dict.keys customer)) by (apply (in_map fst) in I; exact I).
    destruct (in_dec string_dec a custom) as [C|N].
    + right. exists a. repeat split; auto.
      destruct (DictFacts.key_get_Some a reversed (K a Ia C)) as [n G].
      rewrite (out_name_custom a C G) in E. congruence.
    + left. rewrite out_name_not_custom in E by assumption. subst k. auto.
  - intros k v G. apply assign_all_get in G as [G|[[a v'] [I [E1 E2]]]];
      [discriminate|].
    simpl in E2. subst v'. exists a. auto.
  - intros D.
    assert (E : assign_all name snd customer Dict.empty
                = map (rename_item custom reversed) customer).
    { pose proof (remap_customer_exact customer K D) as X.
      unfold remap_customer in X. rewrite remap_items_assign in X by exact K.
      now inversion X. }
    pose proof (renamed_wf customer D) as W.
    split; [exact E|]. rewrite E. split.
    + intros k v I N. apply DictFacts.In_get; [exact W|].
      apply in_map_iff. exists (k, v). split; [|exact I].
      unfold rename_item. simpl. now rewrite out_name_not_custom.
    + intros a v I C.
      assert (Ia : In a (Dict.keys customer)) by (apply (in_map fst) in I; exact I).
      destruct (DictFacts.key_get_Some a reversed (K a Ia C)) as [n G].
      exists n. split; [exact G|]. apply DictFacts.In_get; [exact W|].
      apply in_map_iff. exists (a, v). split; [|exact I].
      unfold rename_item. simpl. now rewrite (out_name_custom a C G).
Qed.

End Renaming.

Lemma C10_remap_frame_witness :
  remap_customer (custom_ids shop_schema)
    (reversed_mapping (userflow_attribute_mapping shop_client)) shop_customer
  = Ok [("id", JStr "u1"); ("loyaltynumber", JNum 7)].
Proof.
  destruct (@C10_remap_frame (custom_ids shop_schema)
              (reversed_mapping (userflow_attribute_mapping shop_client))
              shop_customer)
    as [out [R [_ [_ [_ E]]]]].
  - simpl. intros a _ [<-|[]]. tauto.
  - rewrite R. f_equal. apply E.
    simpl. repeat constructor; simpl; intuition discriminate.
Defined.

(** C10 as stated fails: "mail" is not a custom key, the customer has it
    with a value, and the listing returns it with the value of the custom
    attribute that is displayed as "Mail". *)
Lemma C10_plain_key_loses_value :
  exists remapped_customer w',
    User_list mail_client 0 ["mail"] mail_world = (Ok [remapped_customer], w')
    /\ ~ In "mail" (custom_user_attributes mail_world)
    /\ Dict.get "mail" mail_customer = Some (JStr "a@example.org")
    /\ Dict.get "mail" remapped_customer <> Some (JStr "a@example.org").
Proof.
  exists [("id", JStr "u1"); ("mail", JStr "b@example.org")].
  eexists. split; [vm_compute; reflexivity|].
  split; [simpl; intuition discriminate|].
  split; [reflexivity | discriminate].
Qed.

(** * Round trip through the reversed and the forward mapping *)

Section RoundTrip.

Variable mapping : Dict.t string.
Hypothesis mapping_wf : Dict.wf mapping.
Hypothesis mapping_injective : NoDup (Dict.values mapping).

(** With no value twice, the comprehension swaps each binding. *)
Lemma reversed_mapping_swap :
  reversed_mapping mapping = map (fun kv => (snd kv, fst kv)) mapping.
Proof.
  unfold reversed_mapping.
  apply (DictFacts.fold_set_fresh snd fst mapping Dict.empty).
  exact mapping_injective.
Qed.

Lemma reversed_mapping_wf : Dict.wf (reversed_mapping mapping).
Proof.
  rewrite reversed_mapping_swap. unfold Dict.wf, Dict.keys.
  rewrite map_map. exact mapping_injective.
Qed.

Lemma reversed_get (name id : string) :
  Dict.get id (reversed_mapping mapping) = Some name
  <-> Dict.get name mapping = Some id.
Proof.
  split; intros G.
  - apply DictFacts.get_In in G. rewrite reversed_mapping_swap in G.
    apply in_map_iff in G as [[n i] [E I]]. simpl in E. inversion E; subst.
    now apply DictFacts.In_get.
  - apply DictFacts.In_get; [exact reversed_mapping_wf|].
    rewrite reversed_mapping_swap. apply in_map_iff.
    exists (name, id). split; [reflexivity | now apply DictFacts.get_In].
Qed.

Variable custom : list string.

Local Abbreviation name_of := (out_name custom (reversed_mapping mapping)).

(** A custom id that is a value of the mapping is stored under the name the
    mapping has it under. *)
Lemma name_of_maps_back (id : string) :
  In id custom -> In id (Dict.values mapping) ->
  Dict.get (name_of id) mapping = Some id.
Proof.
  intros C I. unfold Dict.values in I.
  apply in_map_iff in I as [[n i] [E I]]. simpl in E. subst i.
  apply DictFacts.In_get in I; [|exact mapping_wf].
  rewrite (out_name_custom _ _ id C (proj2 (reversed_get n id) I)).
  exact I.
Qed.

Lemma spec_remap_back_exact (items : list (string * json)) :
  (forall a, In a (Dict.keys items) ->
             Dict.get (name_of a) mapping = Some a) ->
  forall back : record,
    NoDup (Dict.keys back ++ Dict.keys items) ->
    spec_remap_back mapping
      (map (rename_item custom (reversed_mapping mapping)) items) back
    = Ok (back ++ items).
Proof.
  induction items as [|[a v] items IH]; intros B back D; simpl.
  - now rewrite app_nil_r.
  - rewrite (B a (or_introl eq_refl)).
    assert (N : ~ In a (Dict.keys back)).
    { intros H. apply NoDup_remove_2 in D. apply D. apply in_or_app. now left. }
    rewrite DictFacts.set_fresh by exact N.
    rewrite IH.
    + now rewrite <- app_assoc.
    + intros a' I. apply B. now right.
    + unfold Dict.keys in *. rewrite map_app. simpl.
      rewrite <- app_assoc. exact D.
Qed.

(** The names under which the fields of such a record are stored are all
    different. *)
Lemma names_all_different (customer : record) :
  Dict.wf customer ->
  (forall a, In a (Dict.keys customer) ->
             In a custom /\ In a (Dict.values mapping)) ->
  NoDup (map name_of (Dict.keys customer)).
Proof.
  intros W H. apply NoDup_map_NoDup_ForallPairs; [|exact W].
  intros x y Ix Iy E.
  destruct (H x Ix) as [Cx Vx]. destruct (H y Iy) as [Cy Vy].
  pose proof (name_of_maps_back x Cx Vx) as Gx.
  pose proof (name_of_maps_back y Cy Vy) as Gy.
  rewrite E in Gx. congruence.
Qed.

(** What the translation of [create] and [update] has under an id: the
    field of the input under the name the mapping has the id under. *)
Lemma known_fields_get (user : record) :
  forall (m : Dict.t string) (mapped : record) (id : string),
    NoDup (Dict.values m) ->
    Dict.get id
      (fold_left
         (fun mapped kv =>
            match Dict.get (fst kv) user with
            | Some v => Dict.set (snd kv) v mapped
            | None => mapped
            end)
         m mapped)
    = match find (fun kv => String.eqb (snd kv) id) m with
      | Some kv =>
          match Dict.get (fst kv) user with
          | Some v => Some v
          | None => Dict.get id mapped
          end
      | None => Dict.get id mapped
      end.
Proof.
  induction m as [|[n0 id0] m IH]; intros mapped id D; simpl; [reflexivity|].
  unfold Dict.values in D. simpl in D. inversion D as [|? ? N D']; subst.
  rewrite IH by exact D'.
  destruct (String.eqb_spec id0 id) as [->|Ne].
  - assert (F : find (fun kv : string * string => String.eqb (snd kv) id) m
                = None).
    { destruct (find _ m) as [kv|] eqn:F; [|reflexivity].
      apply find_some in F as [I E]. apply String.eqb_eq in E.
      exfalso. apply N. rewrite <- E. now apply in_map. }
    rewrite F. simpl.
    destruct (Dict.get n0 user); [apply DictFacts.get_set_same | reflexivity].
  - assert (G : Dict.get id
                  (match Dict.get n0 user with
                   | Some v => Dict.set id0 v mapped
                   | None => mapped
                   end) = Dict.get id mapped).
    { destruct (Dict.get n0 user); [|reflexivity].
      apply DictFacts.get_set_other. congruence. }
    rewrite G. reflexivity.
Qed.

(** C8: a record whose keys are custom ids that the mapping has as values
    comes out of the renaming with the same values in the same order, each
    under the name the mapping has its key under; replacing each of these
    names by the id the mapping gives for it is the record again, and so is,
    as a dictionary, what the translation of [create] and [update] makes of
    it.  The mapping is taken with no value under two names. *)
Theorem C8_remap_round_trip (customer : record) :
  Dict.wf customer ->
  (forall a, In a (Dict.keys customer) ->
             In a custom /\ In a (Dict.values mapping)) ->
  exists remapped_customer,
    remap_customer custom (reversed_mapping mapping) customer
    = Ok remapped_customer
    /\ Dict.values remapped_customer = Dict.values customer
    /\ Forall2 (fun name id => Dict.get name mapping = Some id)
               (Dict.keys remapped_customer) (Dict.keys customer)
    /\ spec_remap_back mapping remapped_customer Dict.empty = Ok customer
    /\ Dict.equiv (map_known_fields mapping remapped_customer) customer.
Proof.
  intros W H.
  pose proof (names_all_different W H) as D.
  assert (K : forall a, In a (Dict.keys customer) -> In a custom ->
                        In a (Dict.keys (reversed_mapping mapping))).
  { intros a I _. apply reversed_mapping_keys. now apply H. }
  assert (B : forall a, In a (Dict.keys customer) ->
                        Dict.get (name_of a) mapping = Some a).
  { intros a I. destruct (H a I). now apply name_of_maps_back. }
  pose proof (renamed_wf custom (reversed_mapping mapping) customer D) as Wr.
  eexists. split; [apply remap_customer_exact; assumption|].
  split; [|split; [|split]].
  - unfold Dict.values. rewrite map_map. reflexivity.
  - clear W H D K Wr. induction customer as [|[a v] c IH]; simpl; constructor.
    + apply B. now left.
    + apply IH. intros a' I. apply B. now right.
  - rewrite spec_remap_back_exact; [reflexivity | exact B | exact W].
  - intros id. unfold map_known_fields.
    rewrite known_fields_get by exact mapping_injective. simpl.
    destruct (find (fun kv : string * string => String.eqb (snd kv) id) mapping)
      as [[n i]|] eqn:F; simpl.
    + apply find_some in F as [I E]. simpl in E. apply String.eqb_eq in E.
      subst i. apply DictFacts.In_get in I; [|exact mapping_wf].
      destruct (in_dec string_dec id (Dict.keys customer)) as [Ic|Nc].
      * destruct (DictFacts.key_get_Some id customer Ic) as [v G].
        rewrite G.
        assert (En : name_of id = n).
        { destruct (H id Ic) as [C _].
          apply out_name_custom; [exact C | now apply reversed_get]. }
        assert (Gr : Dict.get n
                       (map (rename_item custom (reversed_mapping mapping))
                            customer) = Some v).
        { apply DictFacts.In_get; [exact Wr|]. apply in_map_iff.
          exists (id, v). split; [|now apply DictFacts.get_In].
          unfold rename_item. simpl. now rewrite En. }
        now rewrite Gr.
      * rewrite (proj2 (DictFacts.get_None id customer) Nc).
        destruct (Dict.get n
                    (map (rename_item custom (reversed_mapping mapping))
                         customer)) as [v|] eqn:G; [|reflexivity].
        exfalso. apply DictFacts.get_In in G.
        apply in_map_iff in G as [[a v'] [E Ia]].
        unfold rename_item in E. simpl in E. inversion E; subst.
        apply (in_map fst) in Ia. simpl in Ia.
        rewrite (B a Ia) in I. inversion I; subst. contradiction.
    + destruct (Dict.get id customer) as [v|] eqn:G; [|reflexivity].
      exfalso. apply DictFacts.get_Some_key in G.
      destruct (H id G) as [_ Iv]. unfold Dict.values in Iv.
      apply in_map_iff in Iv as [kv [E Ikv]].
      apply (find_none _ _ F) in Ikv. rewrite E, String.eqb_refl in Ikv.
      discriminate.
Qed.

End RoundTrip.

Lemma C8_remap_round_trip_witness :
  exists remapped_customer,
    remap_customer (custom_ids shop_schema)
      (reversed_mapping (userflow_attribute_mapping shop_client)) loyalty_only
    = Ok remapped_customer
    /\ Dict.keys remapped_customer = ["loyaltynumber"]
    /\ spec_remap_back (userflow_attribute_mapping shop_client)
         remapped_customer Dict.empty
       = Ok loyalty_only.
Proof.
  destruct (@C8_remap_round_trip (userflow_attribute_mapping shop_client))
    with (custom := custom_ids shop_schema) (customer := loyalty_only)
    as [out [R [_ [F [S _]]]]].
  - unfold Dict.wf. simpl. repeat constructor; simpl; intuition discriminate.
  - simpl. repeat constructor; simpl; intuition discriminate.
  - unfold Dict.wf. simpl. repeat constructor; simpl; tauto.
  - simpl. intros a [<-|[]]. tauto.
  - exists out. split; [exact R|]. split; [|exact S].
    vm_compute in R. now inversion R.
Defined.

(** * The class-level list *)

Lemma constructed_mapping_wf (tenant api tok : string)
    (extensions : list extension) :
  Dict.wf (userflow_attribute_mapping (constructed tenant api tok extensions)).
Proof. simpl. apply mapping_of_wf. constructor. Qed.

Lemma count_occ_twice (ids : list string) (id : string) :
  count_occ string_dec (ids ++ ids) id = 2 * count_occ string_dec ids id.
Proof. rewrite count_occ_app. lia. Qed.

(** C9: the list of custom ids is one list for the class.  Each
    construction appends the custom ids of its schema to what the list
    held, so after two constructions it holds the ids of both, whichever
    instance reads it; after two constructions against one schema in a
    fresh process every id is there twice as often as the schema has it,
    twice when the schema has it once. *)
Theorem C9_custom_list_is_shared
    (app_id secret tenant_id tenant api tok : string)
    (app_id' secret' tenant_id' tenant' api' tok' : string)
    (b1 b2 b3 b4 : bool) (schema schema' : list extension)
    (rest : list response) (w : world) :
  pending w = mkResponse (Token tok) b1
              :: mkResponse (Attributes schema) b2
              :: mkResponse (Token tok') b3
              :: mkResponse (Attributes schema') b4 :: rest ->
  exists first second w',
    two_clients app_id secret tenant_id tenant api
                app_id' secret' tenant_id' tenant' api' w
    = (Ok (first, second), w')
    /\ custom_user_attributes w'
       = custom_user_attributes w ++ custom_ids schema ++ custom_ids schema'
    /\ fst (read_custom w') = Ok (custom_user_attributes w')
    /\ (forall id, In id (custom_ids schema) \/ In id (custom_ids schema') ->
                   In id (custom_user_attributes w'))
    /\ (schema = schema' -> custom_user_attributes w = [] ->
        forall id,
          count_occ string_dec (custom_user_attributes w') id
          = 2 * count_occ string_dec (custom_ids schema) id)
    /\ (schema = schema' -> custom_user_attributes w = [] ->
        NoDup (custom_ids schema) ->
        forall id, In id (custom_ids schema) ->
                   count_occ string_dec (custom_user_attributes w') id = 2).
Proof.
  intros P. unfold two_clients, bind.
  erewrite User_init_run by exact P. simpl.
  erewrite User_init_run by reflexivity. simpl.
  eexists. eexists. eexists. split; [reflexivity|]. simpl.
  split; [now rewrite <- app_assoc|].
  split; [reflexivity|]. split; [|split].
  - intros id I. rewrite <- app_assoc. apply in_or_app. right.
    apply in_or_app. exact I.
  - intros <- E id. rewrite E. simpl. apply count_occ_twice.
  - intros <- E D id I. rewrite E. simpl. rewrite count_occ_twice.
    rewrite (proj1 (NoDup_count_occ' string_dec (custom_ids schema)) D id I).
    reflexivity.
Qed.

Lemma C9_custom_list_is_shared_witness :
  exists first second w',
    two_clients "app" "secret" "tid" "shop.onmicrosoft.com" "https://g"
                "app" "secret" "tid" "shop.onmicrosoft.com" "https://g"
                fresh_process
    = (Ok (first, second), w')
    /\ custom_user_attributes w'
       = ["extension_abc_LoyaltyNumber"; "extension_abc_LoyaltyNumber"]
    /\ count_occ string_dec (custom_user_attributes w')
                 "extension_abc_LoyaltyNumber" = 2.
Proof.
  destruct (@C9_custom_list_is_shared
              "app" "secret" "tid" "shop.onmicrosoft.com" "https://g" "t0"
              "app" "secret" "tid" "shop.onmicrosoft.com" "https://g" "t1"
              true true true true shop_schema shop_schema [] fresh_process)
    as [first [second [w' [R [C [_ [_ [_ T]]]]]]]].
  - reflexivity.
  - exists first, second, w'. split; [exact R|]. split; [exact C|].
    apply T; try reflexivity.
    + simpl. repeat constructor. simpl. tauto.
    + simpl. tauto.
Defined.

(** An id found by another client reaches the renaming of this one: the
    shop client meets the custom id of the mail tenant in the shared list,
    has no name for it, and the listing ends in KeyError. *)
Example foreign_id_breaks_listing :
  fst (User_list shop_client 0 []
         (mkWorld (custom_ids shop_schema ++ custom_ids mail_schema) []
                  [page_answer [mail_customer] None]))
  = Raise (KeyError "extension_abc_Mail").
Proof. reflexivity. Qed.

(** * Listing: what is asked for *)

Lemma In_set_add (x y : string) (s : list string) :
  In y (set_add x s) <-> y = x \/ In y s.
Proof.
  unfold set_add. destruct (mem_list x s) eqn:E.
  - apply mem_list_In in E. split; [auto | intros [->|H]; auto].
  - rewrite in_app_iff. simpl. intuition congruence.
Qed.

Lemma NoDup_set_add (x : string) (s : list string) :
  NoDup s -> NoDup (set_add x s).
Proof.
  intros D. unfold set_add. destruct (mem_list x s) eqn:E; [exact D|].
  apply mem_list_not_In in E.
  apply NoDup_app; [exact D | repeat constructor; simpl; tauto |].
  intros a I [<-|[]]. contradiction.
Qed.

Lemma attributes_to_fetch_set (mapping : Dict.t string)
    (include_attributes : list string) :
  forall fetch0 fetch,
    attributes_to_fetch mapping include_attributes fetch0 = Ok fetch ->
    (NoDup fetch0 -> NoDup fetch)
    /\ forall x, In x fetch
                 <-> In x fetch0
                     \/ exists a, In a include_attributes
                                  /\ Dict.get a mapping = Some x.
Proof.
  induction include_attributes as [|a rest IH]; intros fetch0 fetch H;
    simpl in H.
  - inversion H; subst. split; [auto|]. intros x. split; [auto|].
    intros [I|[a [[] _]]]. exact I.
  - destruct (Dict.get a mapping) as [mapped|] eqn:G; [|discriminate].
    apply IH in H as [D M]. split.
    + intros D0. apply D. now apply NoDup_set_add.
    + intros x. rewrite M, In_set_add. split.
      * intros [[->|I]|[a' [I G']]].
        -- right. exists a. split; [now left | exact G].
        -- now left.
        -- right. exists a'. split; [now right | exact G'].
      * intros [I|[a' [[<-|I] G']]].
        -- left. now right.
        -- left. left. congruence.
        -- right. exists a'. auto.
Qed.

(** The attributes a listing selects, when the names it is given are all
    known: the base attributes and the ids the mapping has for the names,
    each once. *)
Theorem list_selects_base_and_mapped (self : User)
    (include_attributes : list string) :
  (forall a, In a include_attributes ->
             Dict.mem a (userflow_attribute_mapping self) = true) ->
  exists fetch,
    attributes_to_fetch (userflow_attribute_mapping self) include_attributes
                        base_user_attributes = Ok fetch
    /\ NoDup fetch
    /\ forall x, In x fetch
                 <-> In x base_user_attributes
                     \/ exists a, In a include_attributes
                                  /\ Dict.get a (userflow_attribute_mapping self)
                                     = Some x.
Proof.
  intros K.
  destruct (attributes_to_fetch_known _ _ K base_user_attributes) as [fetch F].
  exists fetch. split; [exact F|].
  destruct (attributes_to_fetch_set _ _ _ F) as [D M].
  split; [|exact M]. apply D.
  unfold base_user_attributes.
  repeat constructor; simpl; intuition discriminate.
Qed.

Lemma list_selects_base_and_mapped_witness :
  exists fetch,
    attributes_to_fetch (userflow_attribute_mapping shop_client)
      ["loyaltynumber"; "city"; "loyaltynumber"] base_user_attributes
    = Ok fetch
    /\ NoDup fetch
    /\ In "extension_abc_LoyaltyNumber" fetch.
Proof.
  destruct (@list_selects_base_and_mapped shop_client
              ["loyaltynumber"; "city"; "loyaltynumber"])
    as [fetch [F [D M]]].
  - intros a [<-|[<-|[<-|[]]]]; reflexivity.
  - exists fetch. split; [exact F|]. split; [exact D|].
    apply M. right. exists "loyaltynumber". split; [now left | reflexivity].
Defined.

(** * Listing: the branch with a bound *)

(** With a max other than 0 the listing returns no customer at all: it
    raises, or returns the empty list.  When the server answers the one
    request with a page, the page is walked by its keys and the call ends in
    AttributeError. *)
Theorem list_with_bound_returns_no_customer (self : User) (max : Z)
    (include_attributes : list string) (w : world) :
  max <> 0%Z ->
  (forall out w',
      User_list self max include_attributes w = (Ok out, w') -> out = [])
  /\ (forall fetch answer rest value next,
        (max <= 999)%Z ->
        attributes_to_fetch (userflow_attribute_mapping self)
                            include_attributes base_user_attributes
        = Ok fetch ->
        pending w = answer :: rest ->
        resp_json answer = Page value next ->
        User_list self max include_attributes w
        = (Raise (AttributeError "'str' object has no attribute 'items'"),
           mkWorld (custom_user_attributes w)
             (sent w ++ [users_request (api_url self ++ "/users")
                                       (join "," fetch) max])
             rest)).
Proof.
  intros N. split.
  - intros out w'. unfold User_list, bind, lift.
    destruct (attributes_to_fetch _ _ _); [|discriminate].
    destruct (Z.eqb_spec max 0); [contradiction|].
    destruct (Z.leb_spec max 999); [|discriminate].
    unfold http. destruct (pending w) as [|answer rest]; [discriminate|].
    unfold ret, read_custom, fix_fieldnames. simpl.
    destruct (body_keys (resp_json answer)); intros E; inversion E.
    reflexivity.
  - intros fetch answer rest value next L F P B.
    unfold User_list, bind, lift. rewrite F.
    destruct (Z.eqb_spec max 0); [contradiction|].
    destruct (Z.leb_spec max 999); [|lia].
    unfold http. rewrite P. unfold ret, read_custom, fix_fieldnames. simpl.
    rewrite B. now destruct next.
Qed.

Lemma list_with_bound_returns_no_customer_witness :
  User_list shop_client 10 [] (shop_world [page_answer two_shop_customers None])
  = (Raise (AttributeError "'str' object has no attribute 'items'"),
     mkWorld (custom_ids shop_schema)
       [users_request "https://graph.microsoft.com/v1.0/users"
          "id,givenName,surname,jobTitle,mail,creationType,identities,accountEnabled"
          10]
       []).
Proof.
  destruct (@list_with_bound_returns_no_customer shop_client 10 []
              (shop_world [page_answer two_shop_customers None]))
    as [_ R].
  - discriminate.
  - apply (R base_user_attributes (page_answer two_shop_customers None) []
             two_shop_customers None); try reflexivity. lia.
Defined.

(** Above 999 the listing, given names it knows, raises the exception of
    line 189 and leaves the state as it was: no request is made. *)
Theorem list_above_999_rejected (self : User) (max : Z)
    (include_attributes : list string) (w : world) :
  (999 < max)%Z ->
  (forall a, In a include_attributes ->
             Dict.mem a (userflow_attribute_mapping self) = true) ->
  User_list self max include_attributes w
  = (Raise (Exception "max value should be between 0 and 999"), w).
Proof.
  intros H K.
  destruct (attributes_to_fetch_known _ _ K base_user_attributes) as [fetch F].
  unfold User_list, bind, lift. rewrite F.
  destruct (Z.eqb_spec max 0); [lia|].
  destruct (Z.leb_spec max 999); [lia|].
  reflexivity.
Qed.

Lemma list_above_999_rejected_witness :
  User_list shop_client 1500 ["city"] (shop_world three_pages)
  = (Raise (Exception "max value should be between 0 and 999"),
     shop_world three_pages).
Proof.
  apply list_above_999_rejected.
  - lia.
  - intros a [<-|[]]. reflexivity.
Defined.

(** * The reversed mapping, whatever the mapping *)

Lemma reversed_mapping_assign (mapping : Dict.t string) :
  reversed_mapping mapping = assign_all snd fst mapping Dict.empty.
Proof. reflexivity. Qed.

(** The name the reversed mapping has for an id is a name the mapping has
    that id under, also when several names share the id; and it has a name
    for exactly the ids that are values of the mapping. *)
Theorem reversed_mapping_right_inverse (mapping : Dict.t string) :
  Dict.wf mapping ->
  (forall id name,
      Dict.get id (reversed_mapping mapping) = Some name ->
      Dict.get name mapping = Some id)
  /\ (forall id,
        Dict.mem id (reversed_mapping mapping) = true
        <-> In id (Dict.values mapping)).
Proof.
  intros W. split.
  - intros id name G. rewrite reversed_mapping_assign in G.
    apply assign_all_get in G as [G|[[n i] [I [E1 E2]]]]; [discriminate|].
    simpl in E1, E2. subst. now apply DictFacts.In_get.
  - intros id. rewrite DictFacts.mem_true. apply reversed_mapping_keys.
Qed.

Lemma reversed_mapping_right_inverse_witness :
  Dict.get "loyaltynumber" (userflow_attribute_mapping shop_client)
  = Some "extension_abc_LoyaltyNumber".
Proof.
  destruct (@reversed_mapping_right_inverse
              (userflow_attribute_mapping shop_client)) as [R _].
  - unfold Dict.wf. simpl. repeat constructor; simpl; intuition discriminate.
  - apply R. reflexivity.
Defined.

(** * Records without custom keys *)

(** A record none of whose keys is in the class-level list comes out of the
    renaming as it went in. *)
Theorem remap_keeps_plain_record (custom : list string)
    (reversed : Dict.t string) (customer : record) :
  Dict.wf customer ->
  (forall a, In a (Dict.keys customer) -> ~ In a custom) ->
  remap_customer custom reversed customer = Ok customer.
Proof.
  intros W P.
  assert (E : map (out_name custom reversed) (Dict.keys customer)
              = Dict.keys customer).
  { rewrite <- (map_id (Dict.keys customer)) at 2.
    apply map_ext_in. intros a I. apply out_name_not_custom. now apply P. }
  rewrite remap_customer_exact.
  - apply f_equal. rewrite <- (map_id customer) at 2.
    apply map_ext_in. intros [a v] I. unfold rename_item. simpl.
    rewrite out_name_not_custom; [reflexivity|].
    apply P. apply (in_map fst) in I. exact I.
  - intros a I C. exfalso. exact (P a I C).
  - rewrite E. exact W.
Qed.

Lemma remap_keeps_plain_record_witness :
  remap_customer (custom_ids shop_schema)
    (reversed_mapping (userflow_attribute_mapping shop_client))
    [("id", JStr "u2"); ("mail", JNull)]
  = Ok [("id", JStr "u2"); ("mail", JNull)].
Proof.
  apply remap_keeps_plain_record.
  - unfold Dict.wf. simpl. repeat constructor; simpl; intuition discriminate.
  - simpl. intros a [<-|[<-|[]]]; intuition discriminate.
Defined.

(** * Construction: the names a client accepts *)

Lemma mapping_of_assign (extensions : list extension) (mapping : Dict.t string) :
  mapping_of extensions mapping
  = assign_all extension_key ext_id extensions mapping.
Proof. reflexivity. Qed.

(** The mapping a construction leaves, for a schema with its display names
    in ASCII, has a name exactly for each key the entries of the schema
    write (a built-in id, or a lower-cased display name), and under a name
    it has the id of an entry that writes that name; all its values are
    among the user-flow attributes of the instance. *)
Theorem construction_accepts_schema_names
    (app_id secret tenant_id tenant api tok : string) (b1 b2 : bool)
    (schema : list extension) (rest : list response) (w : world) :
  pending w = mkResponse (Token tok) b1
              :: mkResponse (Attributes schema) b2 :: rest ->
  ascii_names schema = true ->
  exists self w',
    User_init app_id secret tenant_id tenant api w = (Ok self, w')
    /\ (forall name,
          Dict.mem name (userflow_attribute_mapping self) = true
          <-> exists e, In e schema /\ extension_key e = name)
    /\ (forall name id,
          Dict.get name (userflow_attribute_mapping self) = Some id ->
          exists e, In e schema /\ extension_key e = name /\ ext_id e = id)
    /\ (forall id,
          In id (Dict.values (userflow_attribute_mapping self)) ->
          In id (userflow_user_attributes self)).
Proof.
  intros P _. eexists. eexists.
  split; [eapply User_init_run; exact P|]. simpl.
  rewrite mapping_of_assign.
  assert (G : forall name id,
             Dict.get name (assign_all extension_key ext_id schema Dict.empty)
             = Some id ->
             exists e, In e schema /\ extension_key e = name /\ ext_id e = id).
  { intros name id H. apply assign_all_get in H as [H|H];
      [discriminate | exact H]. }
  split; [|split].
  - intros name. rewrite DictFacts.mem_true, assign_all_keys. simpl.
    rewrite in_map_iff. split.
    + intros [[]|[e [E I]]]. eauto.
    + intros [e [I E]]. right. eauto.
  - exact G.
  - intros id I. unfold Dict.values in I.
    apply in_map_iff in I as [[name id'] [E I]]. simpl in E. subst id'.
    apply DictFacts.In_get in I;
      [|apply mapping_of_wf; constructor].
    apply G in I as [e [Ie [_ E]]]. apply in_map_iff. eauto.
Qed.

Lemma construction_accepts_schema_names_witness :
  exists self w',
    User_init "app" "secret" "tid" "shop.onmicrosoft.com" "https://g"
              fresh_process
    = (Ok self, w')
    /\ Dict.mem "loyaltynumber" (userflow_attribute_mapping self) = true.
Proof.
  destruct (@construction_accepts_schema_names
              "app" "secret" "tid" "shop.onmicrosoft.com" "https://g" "t0"
              true true shop_schema
              [mkResponse (Token "t1") true;
               mkResponse (Attributes shop_schema) true]
              fresh_process)
    as [self [w' [R [A _]]]].
  - reflexivity.
  - reflexivity.
  - exists self, w'. split; [exact R|]. apply A.
    exists (mkExtension "extension_abc_LoyaltyNumber" "LoyaltyNumber" "custom").
    split; [simpl; tauto | reflexivity].
Defined.

(** * A client of its own: construction, then all the pages *)

Lemma User_list_all_run (self : User) (include_attributes fetch : list string)
    (first : response) (value : list record) (next : option string)
    (answers rest : list response) (records : list record)
    (links : list string) (w : world) :
  attributes_to_fetch (userflow_attribute_mapping self) include_attributes
                      base_user_attributes = Ok fetch ->
  pending w = first :: answers ++ rest ->
  resp_json first = Page value next ->
  chain next answers records links ->
  User_list self 0 include_attributes w
  = (remap_customers (custom_user_attributes w)
       (reversed_mapping (userflow_attribute_mapping self))
       (value ++ records),
     mkWorld (custom_user_attributes w)
       (sent w
          ++ users_request (api_url self ++ "/users") (join "," fetch) 999
          :: map link_request links)
       rest).
Proof.
  intros F P B C. unfold User_list, bind, lift. rewrite F. simpl.
  unfold http. rewrite P. simpl. rewrite B.
  unfold follow, bind. simpl.
  rewrite (follow_links_chain C). simpl.
  unfold ret, read_custom, fix_fieldnames. simpl.
  rewrite <- app_assoc. reflexivity.
Qed.

(** With the keys of the schema all different, each entry keeps its
    binding. *)
Lemma mapping_of_distinct (schema : list extension) :
  NoDup (map extension_key schema) ->
  mapping_of schema Dict.empty
  = map (fun e => (extension_key e, ext_id e)) schema.
Proof.
  intros D. unfold mapping_of.
  apply (DictFacts.fold_set_fresh extension_key ext_id schema Dict.empty).
  exact D.
Qed.

Lemma custom_ids_are_values (schema : list extension) (id : string) :
  NoDup (map extension_key schema) ->
  In id (custom_ids schema) ->
  In id (Dict.values (mapping_of schema Dict.empty)).
Proof.
  intros D I. rewrite mapping_of_distinct by exact D.
  unfold Dict.values. rewrite map_map. simpl.
  apply In_custom_ids in I as [e [Ie [_ E]]]. apply in_map_iff. eauto.
Qed.

(** In a fresh process, a client built against a schema whose display names
    are in ASCII and whose entries all write different keys lists every
    page without an error from the renaming: two requests for the
    construction, one for the first page (with [$top] = 999 and the selected
    attributes joined in some order) and one per link, and as many customers
    as the pages held. *)
Theorem fresh_client_lists_all_pages
    (app_id secret tenant_id tenant api tok : string) (b1 b2 : bool)
    (schema : list extension) (include_attributes fetch : list string)
    (first : response) (value : list record) (next : option string)
    (answers rest : list response) (records : list record)
    (links : list string) (w : world) :
  custom_user_attributes w = [] ->
  ascii_names schema = true ->
  NoDup (map extension_key schema) ->
  attributes_to_fetch (mapping_of schema Dict.empty) include_attributes
                      base_user_attributes = Ok fetch ->
  pending w = mkResponse (Token tok) b1
              :: mkResponse (Attributes schema) b2
              :: first :: answers ++ rest ->
  resp_json first = Page value next ->
  chain next answers records links ->
  exists out order,
    Permutation order fetch
    /\ construct_and_list app_id secret tenant_id tenant api
         include_attributes w
       = (Ok out,
          mkWorld (custom_ids schema)
            (sent w
               ++ [token_request app_id secret tenant_id; schema_request api;
                   mkRequest GET (api ++ "/users")
                     [("$select", JStr (join "," order));
                      ("$top", JNum 999);
                      ("$filter", JStr "creationType eq 'LocalAccount'")]
                     [] None]
               ++ map link_request links)
            rest)
    /\ length out = length value + length records.
Proof.
  intros E _ D F P B C. unfold construct_and_list, bind.
  erewrite User_init_run by exact P.
  erewrite User_list_all_run; [| exact F | reflexivity | exact B | exact C].
  simpl. rewrite E. simpl.
  destruct (remap_customers_returns (custom_ids schema)
              (reversed_mapping (mapping_of schema Dict.empty))
              (value ++ records)) as [out R].
  { intros a I. apply reversed_mapping_keys.
    now apply custom_ids_are_values. }
  exists out, fetch. split; [apply Permutation_refl|]. rewrite R. split.
  - f_equal. f_equal. rewrite <- app_assoc. reflexivity.
  - apply remap_customers_length in R. now rewrite R, length_app.
Qed.

Lemma fresh_client_lists_all_pages_witness :
  exists out order,
    Permutation order (base_user_attributes ++ ["extension_abc_LoyaltyNumber"])
    /\ construct_and_list "app" "secret" "tid" "shop.onmicrosoft.com"
         "https://g" ["loyaltynumber"]
         (mkWorld [] []
            [mkResponse (Token "t0") true;
             mkResponse (Attributes shop_schema) true;
             page_answer [shop_customer] (Some "https://next/1");
             page_answer [[("id", JStr "u2")]] None])
       = (Ok out,
          mkWorld ["extension_abc_LoyaltyNumber"]
            [token_request "app" "secret" "tid"; schema_request "https://g";
             mkRequest GET "https://g/users"
               [("$select", JStr (join "," order));
                ("$top", JNum 999);
                ("$filter", JStr "creationType eq 'LocalAccount'")]
               [] None;
             link_request "https://next/1"]
            [])
    /\ length out = 2.
Proof.
  destruct (@fresh_client_lists_all_pages
              "app" "secret" "tid" "shop.onmicrosoft.com" "https://g" "t0"
              true true shop_schema ["loyaltynumber"]
              (base_user_attributes ++ ["extension_abc_LoyaltyNumber"])
              (page_answer [shop_customer] (Some "https://next/1"))
              [shop_customer] (Some "https://next/1")
              [page_answer [[("id", JStr "u2")]] None] []
              ([[("id", JStr "u2")]] ++ []) ["https://next/1"]
              (mkWorld [] []
                 [mkResponse (Token "t0") true;
                  mkResponse (Attributes shop_schema) true;
                  page_answer [shop_customer] (Some "https://next/1");
                  page_answer [[("id", JStr "u2")]] None]))
    as [out [order [Pm [R L]]]].
  - reflexivity.
  - reflexivity.
  - simpl. repeat constructor; simpl; intuition discriminate.
  - reflexivity.
  - reflexivity.
  - reflexivity.
  - apply chain_next with (next := None); [reflexivity | apply chain_end].
  - exists out, order. split; [exact Pm|]. split; [exact R | exact L].
Defined.

(** * Profile: the shape of the result *)

Lemma filter_filter (A : Type) (f g : A -> bool) (l : list A) :
  filter f (filter g l) = filter (fun x => g x && f x) l.
Proof.
  induction l as [|x l IH]; simpl; [reflexivity|].
  destruct (g x); simpl; [destruct (f x)|]; now rewrite IH.
Qed.

Lemma keys_pop (V : Type) (k : string) (d : Dict.t V) :
  Dict.wf d ->
  Dict.keys (Dict.pop k d)
  = filter (fun x => negb (String.eqb x k)) (Dict.keys d).
Proof.
  unfold Dict.wf. induction d as [|[k0 v0] d IH]; simpl; intros W;
    [reflexivity|].
  inversion W as [|? ? N W']; subst.
  destruct (String.eqb_spec k0 k) as [->|Ne]; simpl.
  - symmetry. apply forallb_filter_id. apply forallb_forall.
    intros x I. destruct (String.eqb_spec x k); [subst; contradiction|].
    reflexivity.
  - f_equal. now apply IH.
Qed.

Lemma keys_pop_all (V : Type) (unwanted : list string) :
  forall d : Dict.t V,
    Dict.wf d ->
    Dict.keys (fold_left (fun p a => Dict.pop a p) unwanted d)
    = filter (fun k => negb (mem_list k unwanted)) (Dict.keys d).
Proof.
  induction unwanted as [|a unwanted IH]; intros d W; simpl.
  - symmetry. apply forallb_filter_id. now apply forallb_forall.
  - rewrite IH by now apply DictFacts.wf_pop.
    rewrite keys_pop by exact W. rewrite filter_filter.
    apply filter_ext. intros k. now rewrite negb_orb.
Qed.

(** The keys of a profile are the names of the mapping that are not on the
    denylist, in the order of the mapping: they do not depend on what the
    server sent, nor on the attributes that were asked for. *)
Theorem profile_keys_are_fixed (self : User) (userid : string)
    (user_attributes : option (list string)) (answer : response)
    (graph_user_profile : record) (rest : list response) (w : world) :
  Dict.wf (userflow_attribute_mapping self) ->
  pending w = answer :: rest ->
  resp_json answer = Object graph_user_profile ->
  exists user_profile w',
    User_profile self userid user_attributes w = (Ok user_profile, w')
    /\ Dict.keys user_profile
       = filter (fun name => negb (mem_list name unwanted_attributes))
                (Dict.keys (userflow_attribute_mapping self)).
Proof.
  intros W P B. eexists. eexists.
  split; [eapply User_profile_run; eassumption|].
  unfold remove_unwanted.
  rewrite keys_pop_all by now apply full_mapping_wf.
  now rewrite full_mapping_keys.
Qed.

Lemma profile_keys_are_fixed_witness :
  exists user_profile w',
    User_profile hr_client "u1" (Some ["id"]) (hr_world [hr_answer])
    = (Ok user_profile, w')
    /\ Dict.keys user_profile = ["badge"].
Proof.
  destruct (@profile_keys_are_fixed hr_client "u1" (Some ["id"]) hr_answer
              [("jobTitle", JStr "Clerk")] [] (hr_world [hr_answer]))
    as [p [w' [R K]]].
  - unfold Dict.wf. simpl. repeat constructor; simpl; intuition discriminate.
  - reflexivity.
  - reflexivity.
  - exists p, w'. split; [exact R | exact K].
Defined.

(** * Create and update: what is sent for a name of the mapping *)

Lemma one_name_per_value (m : Dict.t string) (a b x : string) :
  NoDup (Dict.values m) -> In (a, x) m -> In (b, x) m -> a = b.
Proof.
  unfold Dict.values. induction m as [|[n i] m IH]; simpl; intros D Ia Ib;
    [destruct Ia|].
  inversion D as [|? ? N D']; subst.
  destruct Ia as [Ea|Ia], Ib as [Eb|Ib].
  - congruence.
  - inversion Ea; subst. exfalso. apply N.
    apply (in_map snd) in Ib. exact Ib.
  - inversion Eb; subst. exfalso. apply N.
    apply (in_map snd) in Ia. exact Ia.
  - now apply IH.
Qed.

Lemma known_fields_of_name (mapping : Dict.t string) (user : record)
    (name id : string) :
  Dict.wf mapping -> NoDup (Dict.values mapping) ->
  Dict.get name mapping = Some id ->
  Dict.get id (map_known_fields mapping user) = Dict.get name user.
Proof.
  intros W D G. unfold map_known_fields.
  rewrite known_fields_get by exact D. simpl.
  apply DictFacts.get_In in G.
  destruct (find (fun kv : string * string => String.eqb (snd kv) id) mapping)
    as [[n i]|] eqn:F.
  - apply find_some in F as [I E]. simpl in E. apply String.eqb_eq in E.
    subst i. rewrite (one_name_per_value mapping n name id D I G). simpl.
    now destruct (Dict.get name user).
  - apply (find_none _ _ F) in G. simpl in G.
    rewrite String.eqb_refl in G. discriminate.
Qed.

Lemma known_fields_keys_from (mapping : Dict.t string) (user : record) :
  forall (mapped : record) (id : string),
    In id (Dict.keys
             (fold_left
                (fun mapped kv =>
                   match Dict.get (fst kv) user with
                   | Some v => Dict.set (snd kv) v mapped
                   | None => mapped
                   end)
                mapping mapped)) ->
    In id (Dict.keys mapped)
    \/ exists name, In (name, id) mapping /\ Dict.mem name user = true.
Proof.
  induction mapping as [|[n i] mapping IH]; intros mapped id H; simpl in H;
    [now left|].
  apply IH in H as [H|[name [I M]]].
  - destruct (Dict.get n user) as [v|] eqn:G; [|now left].
    apply DictFacts.In_keys_set in H as [->|H]; [|now left].
    right. exists n. split; [now left|]. unfold Dict.mem. now rewrite G.
  - right. exists name. split; [now right | exact M].
Qed.

Lemma known_fields_keys (mapping : Dict.t string) (user : record) (id : string) :
  In id (Dict.keys (map_known_fields mapping user)) ->
  exists name, In (name, id) mapping /\ Dict.mem name user = true.
Proof.
  intros H. apply known_fields_keys_from in H as [[]|H]. exact H.
Qed.

(** What [update] sends, for a mapping with no id under two names: under
    the id of each name of the mapping, the field the input has under that
    name, and nothing when the input has none; no key that is not the id of
    a name the input has. *)
Theorem update_sends_translated_fields (self : User) (userid : string)
    (user : record) (w : world) :
  Dict.wf (userflow_attribute_mapping self) ->
  NoDup (Dict.values (userflow_attribute_mapping self)) ->
  exists payload,
    sent (snd (User_update self userid user w))
    = sent w ++ [update_request self userid payload]
    /\ (forall name id,
          Dict.get name (userflow_attribute_mapping self) = Some id ->
          Dict.get id payload = Dict.get name user)
    /\ (forall id,
          Dict.mem id payload = true ->
          exists name,
            Dict.get name (userflow_attribute_mapping self) = Some id
            /\ Dict.mem name user = true).
Proof.
  intros W D. eexists. split; [|split].
  - rewrite User_update_run. now destruct (pending w).
  - intros name id G. now apply known_fields_of_name.
  - intros id M. apply DictFacts.mem_true in M.
    apply known_fields_keys in M as [name [I M]].
    exists name. split; [now apply DictFacts.In_get | exact M].
Qed.

Lemma update_sends_translated_fields_witness :
  exists payload,
    sent (snd (User_update shop_client "u1" [("loyaltynumber", JNum 9)]
                 (shop_world [])))
    = [update_request shop_client "u1" payload]
    /\ Dict.get "extension_abc_LoyaltyNumber" payload = Some (JNum 9)
    /\ Dict.get "city" payload = None.
Proof.
  destruct (@update_sends_translated_fields shop_client "u1"
              [("loyaltynumber", JNum 9)] (shop_world []))
    as [payload [S [T _]]].
  - unfold Dict.wf. simpl. repeat constructor; simpl; intuition discriminate.
  - simpl. repeat constructor; simpl; intuition discriminate.
  - exists payload. split; [exact S|]. split.
    + apply (T "loyaltynumber"). reflexivity.
    + apply (T "city"). reflexivity.
Defined.

Section CreateMore.

Variable py_repr : json -> string.

(** Without an email, or without a password, [create] raises KeyError with
    the name that is missing (the email first) and makes no request. *)
Theorem create_needs_email_and_password (self : User) (user : record)
    (w : world) :
  Dict.mem "email" user = false \/ Dict.mem "password" user = false ->
  User_create py_repr self user w
  = (Raise (KeyError (if Dict.mem "email" user then "password" else "email")),
     w).
Proof.
  intros H. unfold User_create, bind, lift, new_user_payload, subscript.
  unfold Dict.mem in *.
  destruct (Dict.get "email" user); [|reflexivity].
  destruct (Dict.get "password" user); [|reflexivity].
  destruct H; discriminate.
Qed.

(** What [create] posts for the names of the mapping, for a mapping with no
    id under two names: under the id of a name, unless the id is one of the
    keys [create] assigns by itself, the field the input has under that
    name; under "mail" the email of the input, whatever the mapping; and no
    key besides those and the ids of the names the input has. *)
Theorem create_sends_translated_fields (self : User) (user : record)
    (email password : json) (w : world) :
  Dict.wf (userflow_attribute_mapping self) ->
  NoDup (Dict.values (userflow_attribute_mapping self)) ->
  Dict.get "email" user = Some email ->
  Dict.get "password" user = Some password ->
  exists payload,
    sent (snd (User_create py_repr self user w))
    = sent w ++ [create_request self payload]
    /\ (forall name id,
          Dict.get name (userflow_attribute_mapping self) = Some id ->
          ~ In id create_writes ->
          Dict.get id payload = Dict.get name user)
    /\ Dict.get "mail" payload = Some email
    /\ (forall id,
          Dict.mem id payload = true ->
          In id create_writes
          \/ exists name,
               Dict.get name (userflow_attribute_mapping self) = Some id
               /\ Dict.mem name user = true).
Proof.
  intros W D E P. eexists.
  split; [apply User_create_sent;
          apply (new_user_payload_returns py_repr self user E P)|].
  split; [|split].
  - intros name id G N. unfold create_writes in N. simpl in N.
    rewrite !DictFacts.get_set_other by (intros ->; tauto).
    now apply known_fields_of_name.
  - get_set. reflexivity.
  - intros id M. apply DictFacts.mem_true in M.
    repeat (apply DictFacts.In_keys_set in M as [->|M];
            [left; simpl; tauto|]).
    right. apply known_fields_keys in M as [name [I M]].
    exists name. split; [now apply DictFacts.In_get | exact M].
Qed.

End CreateMore.

Lemma create_needs_email_and_password_witness :
  User_create no_repr shop_client without_password (shop_world [])
  = (Raise (KeyError "password"), shop_world []).
Proof.
  apply (@create_needs_email_and_password no_repr shop_client
           without_password (shop_world [])).
  right. reflexivity.
Defined.

Lemma create_sends_translated_fields_witness :
  exists payload,
    sent (snd (User_create no_repr shop_client new_customer (shop_world [])))
    = [create_request shop_client payload]
    /\ Dict.get "extension_abc_LoyaltyNumber" payload = Some (JNum 7)
    /\ Dict.get "mail" payload = Some (JStr "ada@example.org").
Proof.
  destruct (@create_sends_translated_fields no_repr shop_client new_customer
              (JStr "ada@example.org") (JStr "S3cret!") (shop_world []))
    as [payload [S [T [M _]]]].
  - unfold Dict.wf. simpl. repeat constructor; simpl; intuition discriminate.
  - simpl. repeat constructor; simpl; intuition discriminate.
  - reflexivity.
  - reflexivity.
  - exists payload. split; [exact S|]. split; [|exact M].
    apply (T "loyaltynumber"); [reflexivity|].
    simpl. intuition discriminate.
Defined.

(** * The class-level list and the log under the operations *)

Create HintDb frame.

Lemma frame_refl (w : world) : frame w w.
Proof. split; [reflexivity | exists []; now rewrite app_nil_r]. Qed.

Lemma frame_trans (w1 w2 w3 : world) :
  frame w1 w2 -> frame w2 w3 -> frame w1 w3.
Proof.
  intros [C1 [n1 S1]] [C2 [n2 S2]]. split; [congruence|].
  exists (n1 ++ n2). now rewrite S2, S1, app_assoc.
Qed.

Lemma framed_ret (A : Type) (a : A) : framed (ret a).
Proof. intros w. apply frame_refl. Qed.

Lemma framed_raise (A : Type) (e : exn) : framed (@raise A e).
Proof. intros w. apply frame_refl. Qed.

Lemma framed_lift (A : Type) (r : result A) : framed (lift r).
Proof. intros w. apply frame_refl. Qed.

Lemma framed_read_custom : framed read_custom.
Proof. intros w. apply frame_refl. Qed.

Lemma framed_http (r : request) : framed (http r).
Proof.
  intros w. unfold http.
  destruct (pending w); simpl; (split; [reflexivity | now exists [r]]).
Qed.

Lemma framed_bind (A B : Type) (m : M A) (f : A -> M B) :
  framed m -> (forall a, framed (f a)) -> framed (bind m f).
Proof.
  intros Hm Hf w. unfold bind. specialize (Hm w).
  destruct (m w) as [[a|e] w1]; simpl in *; [|exact Hm].
  eapply frame_trans; [exact Hm | apply Hf].
Qed.

Lemma follow_links_log (answers : list response) :
  forall (next : option string) (all_customers : list record)
         (log : list request),
    exists new,
      fst (snd (follow_links next all_customers log answers)) = log ++ new.
Proof.
  induction answers as [|answer answers IH]; intros next acc log;
    destruct next as [link|]; simpl.
  - now exists [mkRequest GET link [] [] None].
  - exists []. now rewrite app_nil_r.
  - destruct (resp_json answer) as [t|v|value next|d]; simpl;
      try (now exists [mkRequest GET link [] [] None]).
    destruct (IH next (acc ++ value) (log ++ [mkRequest GET link [] [] None]))
      as [new E].
    exists (mkRequest GET link [] [] None :: new).
    rewrite E. now rewrite <- app_assoc.
  - exists []. now rewrite app_nil_r.
Qed.

Lemma framed_follow (next : option string) (all_customers : list record) :
  framed (follow next all_customers).
Proof.
  intros w. unfold follow.
  destruct (follow_links_log (pending w) next all_customers (sent w))
    as [new E].
  destruct (follow_links next all_customers (sent w) (pending w))
    as [r [log answers]].
  simpl in *. split; [reflexivity | eauto].
Qed.

#[local] Hint Resolve framed_ret framed_raise framed_lift framed_read_custom
  framed_http framed_bind framed_follow : frame.

Lemma framed_list (self : User) (max : Z) (include_attributes : list string) :
  framed (User_list self max include_attributes).
Proof.
  unfold User_list. apply framed_bind; [auto with frame|]. intros fetch.
  apply framed_bind; [|auto with frame].
  destruct (max =? 0)%Z.
  - apply framed_bind; [auto with frame|]. intros answer.
    destruct (resp_json answer); auto with frame.
  - destruct (max <=? 999)%Z; auto with frame.
Qed.

(** No operation on an instance touches the class-level list, and none
    takes a request back from the log: only the construction writes the
    list. *)
Theorem operations_keep_class_list (py_repr : json -> string) (self : User)
    (email userid password : string) (max : Z)
    (include_attributes : list string) (user_attributes : option (list string))
    (user : record) :
  framed (User_search self email)
  /\ framed (User_list self max include_attributes)
  /\ framed (User_profile self userid user_attributes)
  /\ framed (User_create py_repr self user)
  /\ framed (User_update self userid user)
  /\ framed (User_delete self userid)
  /\ framed (User_change_password self userid password).
Proof.
  split; [|split; [|split; [|split; [|split; [|split]]]]].
  - unfold User_search, conn_get. apply framed_bind; [auto with frame|].
    intros answer. destruct (resp_json answer); auto with frame.
  - apply framed_list.
  - unfold User_profile, conn_get. apply framed_bind; [auto with frame|].
    intros answer. destruct (resp_json answer); auto with frame.
  - unfold User_create, conn_post. auto 6 with frame.
  - unfold User_update, conn_patch. auto with frame.
  - unfold User_delete, conn_delete. auto with frame.
  - unfold User_change_password, conn_patch. auto with frame.
Qed.

(** * Passwords *)

Section Passwords.

Variable py_repr : json -> string.

(** [change_password] patches one field, the password profile, and it is
    the profile [create] posts for the same password; the request goes to
    the user, whatever the mapping, and the truth value of the answer comes
    back. *)
Theorem change_password_sends_profile_of_create (self : User)
    (userid password : string) (user : record) (email : json)
    (answer : response) (rest : list response) (w : world) :
  Dict.get "email" user = Some email ->
  Dict.get "password" user = Some (JStr password) ->
  pending w = answer :: rest ->
  exists patch posted,
    User_change_password self userid password w
    = (Ok (resp_bool answer),
       mkWorld (custom_user_attributes w)
         (sent w ++ [update_request self userid patch]) rest)
    /\ Dict.keys patch = ["passwordProfile"]
    /\ new_user_payload py_repr self user = Ok posted
    /\ Dict.get "passwordProfile" posted = Dict.get "passwordProfile" patch.
Proof.
  intros E P A. eexists. eexists. split; [|split; [|split]].
  - unfold User_change_password, conn_patch, bind, http. rewrite A.
    reflexivity.
  - reflexivity.
  - apply (new_user_payload_returns py_repr self user E P).
  - get_set. reflexivity.
Qed.

End Passwords.

Lemma change_password_sends_profile_of_create_witness :
  exists patch,
    User_change_password shop_client "u1" "S3cret!"
      (shop_world [mkResponse (Object []) true])
    = (Ok true,
       mkWorld (custom_ids shop_schema)
         [update_request shop_client "u1" patch] [])
    /\ Dict.get "passwordProfile" patch
       = Some (password_profile (JStr "S3cret!")).
Proof.
  destruct (@change_password_sends_profile_of_create no_repr shop_client
              "u1" "S3cret!" new_customer (JStr "ada@example.org")
              (mkResponse (Object []) true) []
              (shop_world [mkResponse (Object []) true]))
    as [patch [posted [R [K [N G]]]]].
  - reflexivity.
  - reflexivity.
  - reflexivity.
  - exists patch. split; [exact R|]. rewrite <- G.
    vm_compute in N. inversion N. reflexivity.
Defined.

(** * Search: the email in the address *)

Lemma list_ascii_of_string_app (a b : string) :
  list_ascii_of_string (a ++ b)
  = list_ascii_of_string a ++ list_ascii_of_string b.
Proof. induction a as [|c a IH]; simpl; [reflexivity | now rewrite IH]. Qed.

Lemma string_app_inv_head (p a b : string) :
  (p ++ a)%string = (p ++ b)%string -> a = b.
Proof.
  induction p as [|c p IH]; simpl; intros H; [exact H|].
  inversion H. auto.
Qed.

Lemma string_app_inv_tail (a b t : string) :
  (a ++ t)%string = (b ++ t)%string -> a = b.
Proof.
  intros H. apply (f_equal list_ascii_of_string) in H.
  rewrite !list_ascii_of_string_app in H. apply app_inv_tail in H.
  apply (f_equal string_of_list_ascii) in H.
  now rewrite !string_of_list_ascii_of_string in H.
Qed.

Lemma hex_digit_url_char (n : nat) : url_char (hex_digit n) = true.
Proof.
  do 16 (destruct n as [|n]; [reflexivity|]).
  unfold hex_digit. simpl. now destruct n.
Qed.

Lemma quote_byte_chars (c : ascii) :
  Forall (fun x => url_char x = true) (list_ascii_of_string (quote_byte c)).
Proof.
  unfold quote_byte.
  destruct (always_safe c || Ascii.eqb c "/")%bool eqn:S; simpl.
  - constructor; [|constructor]. unfold url_char. now rewrite S.
  - repeat constructor; apply hex_digit_url_char.
Qed.

Lemma quote_chars (s : string) :
  Forall (fun x => url_char x = true) (list_ascii_of_string (quote s)).
Proof.
  induction s as [|c s IH]; simpl; [constructor|].
  rewrite list_ascii_of_string_app. apply Forall_app.
  split; [apply quote_byte_chars | exact IH].
Qed.

(** Two hexadecimal digits written for a byte read back as that byte. *)
Lemma byte_of_hex_digits (c : ascii) :
  byte_of_hex (hex_digit (nat_of_ascii c / 16))
              (hex_digit (nat_of_ascii c mod 16)) = c.
Proof.
  destruct c as [[] [] [] [] [] [] [] []]; reflexivity.
Qed.

Lemma quote_byte_not_empty (c : ascii) (s : string) :
  (quote_byte c ++ s)%string <> "".
Proof.
  unfold quote_byte. destruct (always_safe c || Ascii.eqb c "/")%bool;
    discriminate.
Qed.

Lemma quote_injective (a : string) :
  forall b, quote a = quote b -> a = b.
Proof.
  induction a as [|c a IH]; intros [|d b] H; simpl in H.
  - reflexivity.
  - symmetry in H. now apply quote_byte_not_empty in H.
  - now apply quote_byte_not_empty in H.
  - unfold quote_byte in H.
    destruct (always_safe c || Ascii.eqb c "/")%bool eqn:Sc;
      destruct (always_safe d || Ascii.eqb d "/")%bool eqn:Sd;
      cbn [append] in H; inversion H; subst.
    + f_equal. auto.
    + discriminate Sc.
    + discriminate Sd.
    + f_equal; [|auto].
      rewrite <- (byte_of_hex_digits c), <- (byte_of_hex_digits d).
      congruence.
Qed.

(** The search makes one request, a GET whose address filters on the tenant
    name as issuer and on the percent-encoded email and selects id and
    identities, and returns the users of the answer; the encoded email is
    made of letters, digits and [_.-~/%] only, so it has no quote byte. *)
Theorem search_quotes_the_email (self : User) (email : string)
    (answer : response) (value : list record) (next : option string)
    (rest : list response) (w : world) :
  pending w = answer :: rest ->
  resp_json answer = Page value next ->
  User_search self email w
  = (Ok value,
     mkWorld (custom_user_attributes w)
       (sent w
          ++ [mkRequest GET
                (api_url self
                   ++ "/users?$filter=(identities/any(i:i/issuer eq '"
                   ++ tenant_name self
                   ++ "' and i/issuerAssignedId eq '"
                   ++ quote email
                   ++ "'))&$select=id,identities")
                [] [] None])
       rest)
  /\ Forall (fun c => url_char c = true) (list_ascii_of_string (quote email))
  /\ ~ In "'"%char (list_ascii_of_string (quote email)).
Proof.
  intros P B. split; [|split].
  - unfold User_search, conn_get, bind, http. rewrite P. simpl.
    now rewrite B.
  - apply quote_chars.
  - intros I. pose proof (quote_chars email) as F.
    rewrite Forall_forall in F. apply F in I. discriminate I.
Qed.

Lemma search_quotes_the_email_witness :
  User_search shop_client "o'neil@example.org"
    (shop_world [page_answer [] None])
  = (Ok [],
     mkWorld (custom_ids shop_schema)
       [mkRequest GET
          "https://graph.microsoft.com/v1.0/users?$filter=(identities/any(i:i/issuer eq 'shop.onmicrosoft.com' and i/issuerAssignedId eq 'o%27neil%40example.org'))&$select=id,identities"
          [] [] None]
       []).
Proof.
  destruct (@search_quotes_the_email shop_client "o'neil@example.org"
              (page_answer [] None) [] None []
              (shop_world [page_answer [] None]))
    as [R _].
  - reflexivity.
  - reflexivity.
  - exact R.
Defined.

(** Two emails are searched by the same request only when they are the
    same email. *)
Theorem search_request_tells_emails_apart (self : User) (email email' : string) :
  search_request self email = search_request self email' ->
  email = email'.
Proof.
  intros H. unfold search_request, search_url in H.
  injection H as U.
  apply (string_app_inv_head (api_url self)) in U.
  apply (string_app_inv_head
           "/users?$filter=(identities/any(i:i/issuer eq '") in U.
  apply (string_app_inv_head (tenant_name self)) in U.
  apply (string_app_inv_head "' and i/issuerAssignedId eq '") in U.
  apply string_app_inv_tail in U. now apply quote_injective.
Qed.

Lemma search_request_tells_emails_apart_witness :
  "ada@example.org" = "ada@example.org".
Proof.
  apply (@search_request_tells_emails_apart shop_client).
  reflexivity.
Defined.

(** * Construction: the other outcomes *)

(** When the sign-in answers without an access token, the construction
    raises KeyError after that one request: the schema is not asked for and
    the class-level list is as it was. *)
Theorem construction_stops_without_token
    (app_id secret tenant_id tenant api : string) (answer : response)
    (error : record) (rest : list response) (w : world) :
  pending w = answer :: rest ->
  resp_json answer = Object error ->
  Dict.mem "access_token" error = false ->
  User_init app_id secret tenant_id tenant api w
  = (Raise (KeyError "access_token"),
     mkWorld (custom_user_attributes w)
       (sent w ++ [token_request app_id secret tenant_id]) rest).
Proof.
  intros P B _. unfold User_init, connect_mggraph_application, bind, http.
  rewrite P. simpl. now rewrite B.
Qed.

Lemma construction_stops_without_token_witness :
  User_init "app" "wrong" "tid" "shop.onmicrosoft.com" "https://g"
    (mkWorld ["extension_abc_LoyaltyNumber"] []
             [sign_in_failure; mkResponse (Attributes shop_schema) true])
  = (Raise (KeyError "access_token"),
     mkWorld ["extension_abc_LoyaltyNumber"]
       [token_request "app" "wrong" "tid"]
       [mkResponse (Attributes shop_schema) true]).
Proof.
  apply (@construction_stops_without_token "app" "wrong" "tid"
           "shop.onmicrosoft.com" "https://g" sign_in_failure
           [("error", JStr "invalid_client")]); reflexivity.
Defined.

(** After a construction [get_attributes] returns the list the construction
    stored, base and extended attributes and then the ids of the schema, and
    leaves the instance as it is, without a request of its own; "id" is in
    the list twice, not counting the schema. *)
Theorem get_attributes_after_construction
    (app_id secret tenant_id tenant api tok : string) (b1 b2 : bool)
    (schema : list extension) (rest : list response) (w : world) :
  pending w = mkResponse (Token tok) b1
              :: mkResponse (Attributes schema) b2 :: rest ->
  exists attributes self w',
    construct_and_get_attributes app_id secret tenant_id tenant api w
    = (Ok (attributes, self), w')
    /\ User_init app_id secret tenant_id tenant api w = (Ok self, w')
    /\ attributes = all_user_attributes self
    /\ attributes = base_user_attributes ++ extended_user_attributes
                      ++ map ext_id schema
    /\ count_occ string_dec attributes "id"
       = 2 + count_occ string_dec (map ext_id schema) "id".
Proof.
  intros P. unfold construct_and_get_attributes, bind.
  erewrite User_init_run by exact P.
  eexists. eexists. eexists. split; [reflexivity|].
  split; [reflexivity|]. split; [reflexivity|]. split; [reflexivity|].
  simpl. reflexivity.
Qed.

Lemma get_attributes_after_construction_witness :
  exists attributes self w',
    construct_and_get_attributes "app" "secret" "tid" "shop.onmicrosoft.com"
      "https://g" fresh_process
    = (Ok (attributes, self), w')
    /\ count_occ string_dec attributes "id" = 2.
Proof.
  destruct (@get_attributes_after_construction
              "app" "secret" "tid" "shop.onmicrosoft.com" "https://g" "t0"
              true true shop_schema
              [mkResponse (Token "t1") true;
               mkResponse (Attributes shop_schema) true]
              fresh_process)
    as [attributes [self [w' [R [_ [_ [_ C]]]]]]].
  - reflexivity.
  - exists attributes, self, w'. split; [exact R|]. rewrite C. reflexivity.
Defined.

(** * The device-code flow *)

Lemma names_code_numbers (codes : list json) :
  forallb is_number codes = true -> names_code codes = false.
Proof.
  induction codes as [|c codes IH]; simpl; [reflexivity|].
  intros H. apply andb_prop in H as [N H].
  destruct c; try discriminate. simpl. auto.
Qed.

Lemma body_has_object (d : record) (key : string) :
  body_has (Object d) key = Dict.mem key d.
Proof.
  unfold body_has. simpl.
  destruct (Dict.mem key d) eqn:E.
  - apply mem_list_In. now apply DictFacts.mem_true.
  - apply mem_list_not_In. intros I. apply DictFacts.mem_true in I. congruence.
Qed.

Section DeviceCodeFacts.

Variable strftime_after : Z -> result string.
Variable py_repr : json -> string.

Variables (app_id tenant_id api : string) (scopes : list string).

Local Abbreviation connect :=
  (connect_mggraph_devicecode strftime_after py_repr app_id tenant_id scopes api).

(** The flow up to the answer to the redeeming request. *)
Lemma devicecode_until_redeem (first second : response) (issued : record)
    (expires_in user_code : json) (seconds : Z)
    (code_validity device_code address : string)
    (rest : list response) (s : terminal * world) :
  pending (snd s) = first :: second :: rest ->
  resp_json first = Object issued ->
  Dict.get "expires_in" issued = Some expires_in ->
  timedelta_seconds expires_in = Ok seconds ->
  strftime_after seconds = Ok code_validity ->
  Dict.get "device_code" issued = Some (JStr device_code) ->
  Dict.get "user_code" issued = Some user_code ->
  Dict.get "verification_uri" issued = Some (JStr address) ->
  let s' := after_redeem app_id tenant_id scopes
              (py_format py_repr (Some user_code)) code_validity
              address device_code rest s in
  connect s
  = match resp_json second with
    | Token access_token =>
        (Returned (mkConnection api ("Bearer " ++ access_token)), s')
    | Object d =>
        if Dict.mem "error" d then
          match Dict.get "error_codes" d with
          | None => (Raised (KeyError "error_codes"), s')
          | Some error_codes =>
              match py_contains "7000218" error_codes with
              | Raise e => (Raised e, s')
              | Ok true =>
                  (Exited,
                   say "Public client flows not allowed. Please enable this in the appreg"
                       s')
              | Ok false => (Exited, say (py_repr (JObj d)) s')
              end
          end
        else
          match Dict.get "access_token" d with
          | None => (Raised (KeyError "access_token"), s')
          | Some access_token =>
              (Returned (mkConnection api
                           ("Bearer " ++ py_format py_repr (Some access_token))),
               s')
          end
    | _ => (Raised (KeyError "access_token"), s')
    end.
Proof.
  destruct s as [t w]. simpl. intros P B E S C D U V.
  unfold connect_mggraph_devicecode, t_bind, net, http, lift. simpl.
  rewrite P. simpl. rewrite B. simpl. unfold subscript.
  rewrite E. simpl. rewrite S. simpl. rewrite C. simpl.
  rewrite D. simpl. rewrite U. simpl. rewrite V. simpl.
  unfold after_redeem, shown_lines, enter_prompts, say,
    devicecode_request, redeem_request. simpl.
  rewrite <- !app_assoc. simpl.
  destruct (resp_json second) as [tok|v|value next|d].
  - reflexivity.
  - reflexivity.
  - now destruct next.
  - rewrite body_has_object. unfold body_subscript, subscript.
    destruct (Dict.mem "error" d); simpl.
    + destruct (Dict.get "error_codes" d) as [codes|]; simpl; [|reflexivity].
      destruct (py_contains "7000218" codes) as [[|]|e]; simpl;
        rewrite <- ?app_assoc; reflexivity.
    + destruct (Dict.get "access_token" d); reflexivity.
Qed.

(** When the lifetime of the code is in the range of the dates and the
    redeeming request is answered with an error and a list of error codes,
    the flow ends in [exit()] and gives no connection, after its two
    requests, the code shown and the browser opened once; the last line
    shown is the hint about public client flows when the list has the
    string "7000218", and the body as it came otherwise: so it is for a
    list of numbers. *)
Theorem devicecode_error_exits (first second : response)
    (issued error : record) (expires_in user_code : json) (seconds : Z)
    (code_validity device_code address : string) (codes : list json)
    (rest : list response) (s : terminal * world) :
  pending (snd s) = first :: second :: rest ->
  resp_json first = Object issued ->
  Dict.get "expires_in" issued = Some expires_in ->
  timedelta_seconds expires_in = Ok seconds ->
  strftime_after seconds = Ok code_validity ->
  Dict.get "device_code" issued = Some (JStr device_code) ->
  Dict.get "user_code" issued = Some user_code ->
  Dict.get "verification_uri" issued = Some (JStr address) ->
  resp_json second = Object error ->
  Dict.mem "error" error = true ->
  Dict.get "error_codes" error = Some (JArr codes) ->
  connect s
  = (Exited,
     say (if names_code codes
          then "Public client flows not allowed. Please enable this in the appreg"
          else py_repr (JObj error))
         (after_redeem app_id tenant_id scopes
            (py_format py_repr (Some user_code)) code_validity
            address device_code rest s))
  /\ (forallb is_number codes = true ->
      connect s
      = (Exited,
         say (py_repr (JObj error))
             (after_redeem app_id tenant_id scopes
                (py_format py_repr (Some user_code)) code_validity
                address device_code rest s))).
Proof.
  intros P B E S T D U V B2 M C.
  assert (R : connect s
              = (Exited,
                 say (if names_code codes
                      then "Public client flows not allowed. Please enable this in the appreg"
                      else py_repr (JObj error))
                     (after_redeem app_id tenant_id scopes
                        (py_format py_repr (Some user_code))
                        code_validity address device_code rest s))).
  { rewrite (@devicecode_until_redeem first second issued expires_in user_code
               seconds code_validity device_code address rest s
               P B E S T D U V).
    rewrite B2, M, C. simpl. fold (names_code codes).
    now destruct (names_code codes). }
  split; [exact R|].
  intros N. rewrite R. now rewrite (names_code_numbers codes N).
Qed.

(** When the lifetime of the code is in the range of the dates and the
    redeeming request is answered with a token, the flow returns a
    connection that bears it, after two requests: one for a device code,
    with the scopes and the client id, and one that sends in the device
    code the first was answered with; the browser was opened once, at the
    address of that answer. *)
Theorem devicecode_returns_connection (first second : response)
    (issued : record) (expires_in user_code : json) (seconds : Z)
    (code_validity device_code address access_token : string)
    (rest : list response) (s : terminal * world) :
  pending (snd s) = first :: second :: rest ->
  resp_json first = Object issued ->
  Dict.get "expires_in" issued = Some expires_in ->
  timedelta_seconds expires_in = Ok seconds ->
  strftime_after seconds = Ok code_validity ->
  Dict.get "device_code" issued = Some (JStr device_code) ->
  Dict.get "user_code" issued = Some user_code ->
  Dict.get "verification_uri" issued = Some (JStr address) ->
  resp_json second = Token access_token ->
  exists s',
    connect s
    = (Returned (mkConnection api ("Bearer " ++ access_token)), s')
    /\ sent (snd s')
       = sent (snd s)
           ++ [mkRequest POST
                 ("https://login.microsoftonline.com/" ++ tenant_id
                    ++ "/oauth2/v2.0/devicecode")
                 []
                 [("scope", join " " scopes); ("client_id", app_id)]
                 None;
               mkRequest POST
                 ("https://login.microsoftonline.com/" ++ tenant_id
                    ++ "/oauth2/v2.0/token")
                 []
                 [("grant_type",
                   "urn:ietf:params:oauth:grant-type:device_code");
                  ("client_id", app_id);
                  ("device_code", device_code)]
                 None]
    /\ opened (fst s') = opened (fst s) ++ [address]
    /\ pending (snd s') = rest
    /\ custom_user_attributes (snd s') = custom_user_attributes (snd s).
Proof.
  intros P B E S T D U V B2. eexists. split.
  - rewrite (@devicecode_until_redeem first second issued expires_in user_code
               seconds code_validity device_code address rest s
               P B E S T D U V).
    rewrite B2. reflexivity.
  - repeat split.
Qed.

(** When the answer to the first request has no lifetime, or a lifetime in
    the range of the dates but no device code, the flow raises KeyError
    right there: nothing was shown, no prompt made, no browser opened, and
    no code was sent in. *)
Theorem devicecode_needs_code (first : response) (issued : record)
    (rest : list response) (s : terminal * world) :
  pending (snd s) = first :: rest ->
  resp_json first = Object issued ->
  Dict.mem "expires_in" issued = false
  \/ (exists seconds code_validity,
         Dict.get "expires_in" issued = Some (JNum seconds)
         /\ strftime_after seconds = Ok code_validity)
     /\ Dict.mem "device_code" issued = false ->
  connect s
  = (Raised (KeyError (if Dict.mem "expires_in" issued
                       then "device_code" else "expires_in")),
     (fst s,
      mkWorld (custom_user_attributes (snd s))
              (sent (snd s)
                 ++ [mkRequest POST
                       ("https://login.microsoftonline.com/" ++ tenant_id
                          ++ "/oauth2/v2.0/devicecode")
                       []
                       [("scope", join " " scopes); ("client_id", app_id)]
                       None])
              rest)).
Proof.
  destruct s as [t w]. simpl. intros P B H.
  unfold connect_mggraph_devicecode, t_bind, net, http, lift. simpl.
  rewrite P. simpl. rewrite B. simpl. unfold subscript, Dict.mem in *.
  destruct H as [H|[[seconds [code_validity [E T]]] H]].
  - destruct (Dict.get "expires_in" issued); [discriminate | reflexivity].
  - rewrite E. simpl. rewrite T. simpl.
    destruct (Dict.get "device_code" issued); [discriminate | reflexivity].
Qed.

End DeviceCodeFacts.

(** The answer the identity platform gives when public client flows are off
    carries the code as a number: the hint is not shown, the body is. *)
Lemma devicecode_error_exits_witness :
  connect_mggraph_devicecode fixed_clock raw_body "app" "tid"
    ["openid"; "profile"] "https://g"
    (quiet_terminal, mkWorld [] [] [devicecode_answer; flows_disallowed])
  = (Exited,
     (mkTerminal
        ["Please enter the following code in your web browser:";
         "ABCD1234";
         "This code is valid for 15 minutes until 2024-01-01 12:15:00";
         "The browser will open automatically once you press enter.";
         "{'error': 'invalid_client', 'error_codes': [7000218]}"]
        enter_prompts
        ["https://microsoft.com/devicelogin"],
      mkWorld []
        [mkRequest POST
           "https://login.microsoftonline.com/tid/oauth2/v2.0/devicecode"
           [] [("scope", "openid profile"); ("client_id", "app")] None;
         mkRequest POST
           "https://login.microsoftonline.com/tid/oauth2/v2.0/token"
           []
           [("grant_type", "urn:ietf:params:oauth:grant-type:device_code");
            ("client_id", "app");
            ("device_code", "dc-1")]
           None]
        [])).
Proof.
  destruct (@devicecode_error_exits fixed_clock raw_body "app" "tid" "https://g"
              ["openid"; "profile"] devicecode_answer flows_disallowed
              [("user_code", JStr "ABCD1234");
               ("device_code", JStr "dc-1");
               ("verification_uri", JStr "https://microsoft.com/devicelogin");
               ("expires_in", JNum 900)]
              [("error", JStr "invalid_client");
               ("error_codes", JArr [JNum 7000218])]
              (JNum 900) (JStr "ABCD1234") 900%Z "2024-01-01 12:15:00" "dc-1"
              "https://microsoft.com/devicelogin" [JNum 7000218] []
              (quiet_terminal,
               mkWorld [] [] [devicecode_answer; flows_disallowed]))
    as [_ R].
  1-11: reflexivity.
  apply R. reflexivity.
Defined.

Lemma devicecode_returns_connection_witness :
  exists s',
    connect_mggraph_devicecode fixed_clock raw_body "app" "tid"
      ["openid"; "profile"] "https://g"
      (quiet_terminal,
       mkWorld [] [] [devicecode_answer; mkResponse (Token "t0") true])
    = (Returned (mkConnection "https://g" "Bearer t0"), s')
    /\ sent (snd s')
       = [mkRequest POST
            "https://login.microsoftonline.com/tid/oauth2/v2.0/devicecode"
            [] [("scope", "openid profile"); ("client_id", "app")] None;
          mkRequest POST
            "https://login.microsoftonline.com/tid/oauth2/v2.0/token"
            []
            [("grant_type", "urn:ietf:params:oauth:grant-type:device_code");
             ("client_id", "app");
             ("device_code", "dc-1")]
            None]
    /\ opened (fst s') = ["https://microsoft.com/devicelogin"].
Proof.
  destruct (@devicecode_returns_connection fixed_clock raw_body "app" "tid"
              "https://g" ["openid"; "profile"] devicecode_answer
              (mkResponse (Token "t0") true)
              [("user_code", JStr "ABCD1234");
               ("device_code", JStr "dc-1");
               ("verification_uri", JStr "https://microsoft.com/devicelogin");
               ("expires_in", JNum 900)]
              (JNum 900) (JStr "ABCD1234") 900%Z "2024-01-01 12:15:00" "dc-1"
              "https://microsoft.com/devicelogin" "t0" []
              (quiet_terminal,
               mkWorld [] [] [devicecode_answer; mkResponse (Token "t0") true]))
    as [s' [R [S [O _]]]].
  1-9: reflexivity.
  exists s'. split; [exact R|]. split; [exact S | exact O].
Defined.

Lemma devicecode_needs_code_witness :
  connect_mggraph_devicecode fixed_clock raw_body "app" "tid"
    ["openid"] "https://g"
    (quiet_terminal, mkWorld [] [] [sign_in_failure])
  = (Raised (KeyError "expires_in"),
     (quiet_terminal,
      mkWorld []
        [mkRequest POST
           "https://login.microsoftonline.com/tid/oauth2/v2.0/devicecode"
           [] [("scope", "openid"); ("client_id", "app")] None]
        [])).
Proof.
  apply (@devicecode_needs_code fixed_clock raw_body "app" "tid" "https://g"
           ["openid"] sign_in_failure [("error", JStr "invalid_client")] []
           (quiet_terminal, mkWorld [] [] [sign_in_failure])).
  - reflexivity.
  - reflexivity.
  - left. reflexivity.
Defined.
